(** * Time keeper: the timer synchronisation engine of [timekeeper_server.py]

    A shallow embedding of the server's timer state, of one iteration of
    [timer_loop] and of the command handler [cmd], followed by the
    properties of the timer that the specification states.

    Conventions of the model.
    - [time.time()] returns a float. Clock readings and the two anchors
      [_start_wall] and [_elapsed_at_pause] are exact rationals ([Q]); the
      rounding of double arithmetic is not modelled. Readings of one
      binade, as those of [time.time()] are, are multiples of one unit in
      the last place, so their differences, and the sums with a small
      whole offset, are exact in doubles too. For readings between [2^30]
      and [2^31] ([epoch_reading]) the subtraction [total_sec - elapsed]
      is exact as well while [total_sec] is below [2^31]
      ([small_total]); above, the code rounds it, and from [2^1024] on
      the conversion of [total_sec] to a float raises [OverflowError] and
      ends the loop. What is stated of the value of [remaining_sec] after
      an iteration is therefore stated for such readings and totals, and
      what is stated of the loop staying alive for such totals.
    - The process-wide dict [state] is the record [State]; the module-level
      globals are gathered with it in [Server].
    - A handler that fails returns [Raise]; every conversion that can fail
      in [cmd] runs before the first assignment of its branch, so a raising
      call leaves the globals as they were.
    - [sio.emit] appends an [Emission] to the output of the call. *)

From Stdlib Require Import ZArith QArith Qround Lia Lqa Ascii String.
From stdpp Require Import base option list strings gmap.

Local Open Scope Z_scope.

(** * Part I: the model *)

(** ** Python values carried by a command payload *)

Module Py.

(** Floats as decoded by [json]: finite values, or the tokens [NaN],
    [Infinity] and [-Infinity]. *)
Inductive float :=
| Finite (q : Q)
| NaN
| Inf (negative : bool).

#[local] Unset Elimination Schemes.
Inductive value :=
| VNone
| VBool (b : bool)
| VInt (z : Z)
| VFloat (f : float)
| VStr (s : string)
| VList (items : list value)
| VDict (items : list (string * value)).

#[local] Set Elimination Schemes.

Inductive exn := TypeError | ValueError | OverflowError.

(** Outcome of a computation that may raise. *)
Inductive result (A : Type) :=
| Ok (a : A)
| Raise (e : exn).
Arguments Ok {A} a.
Arguments Raise {A} e.

Definition bind {A B} (r : result A) (k : A -> result B) : result B :=
  match r with
  | Ok a => k a
  | Raise e => Raise e
  end.

(** [int(x)] of a finite float: truncation towards zero. *)
Definition trunc (q : Q) : Z := Z.quot (Qnum q) (Z.pos (Qden q)).

(** Characters that [int(str)] strips: the ASCII range of [str.isspace]. *)
Definition is_space (a : ascii) : bool :=
  let n := Z.of_nat (nat_of_ascii a) in
  ((9 <=? n) && (n <=? 13)) || ((28 <=? n) && (n <=? 32)).

Definition digit (a : ascii) : option Z :=
  let n := Z.of_nat (nat_of_ascii a) in
  if (48 <=? n) && (n <=? 57) then Some (n - 48) else None.

Definition is_underscore (a : ascii) : bool :=
  Z.of_nat (nat_of_ascii a) =? 95.

Fixpoint lstrip (s : list ascii) : list ascii :=
  match s with
  | a :: r => if is_space a then lstrip r else s
  | [] => []
  end.

Definition strip (s : list ascii) : list ascii :=
  rev (lstrip (rev (lstrip s))).

(** Decimal digits, where a single underscore may separate two digits.
    [after_digit] tells whether the previous character was a digit. *)
Fixpoint digits (acc : Z) (after_digit : bool) (s : list ascii) : option Z :=
  match s with
  | [] => if after_digit then Some acc else None
  | a :: r =>
      match digit a with
      | Some d => digits (10 * acc + d) true r
      | None =>
          if is_underscore a && after_digit then digits acc false r else None
      end
  end.

(** [int(s)] for a string in base ten: surrounding blanks, an optional
    sign, then digits. Characters outside ASCII are not modelled (the
    digits of other scripts, which [int] accepts, are rejected here), nor
    is the limit that recent interpreters put on the number of digits. *)
Definition int_of_string (s : string) : option Z :=
  match strip (list_ascii_of_string s) with
  | a :: r =>
      let n := Z.of_nat (nat_of_ascii a) in
      if n =? 45 then Z.opp <$> digits 0 false r
      else if n =? 43 then digits 0 false r
      else digits 0 false (a :: r)
  | [] => None
  end.

(** The builtin [int]. *)
Definition int (v : value) : result Z :=
  match v with
  | VNone => Raise TypeError
  | VBool b => Ok (if b then 1 else 0)
  | VInt z => Ok z
  | VFloat (Finite q) => Ok (trunc q)
  | VFloat NaN => Raise ValueError
  | VFloat (Inf _) => Raise OverflowError
  | VStr s =>
      match int_of_string s with
      | Some z => Ok z
      | None => Raise ValueError
      end
  | VList _ => Raise TypeError
  | VDict _ => Raise TypeError
  end.

(** The builtin [bool]: truth value of a payload field. *)
Definition truthy (v : value) : bool :=
  match v with
  | VNone => false
  | VBool b => b
  | VInt z => negb (z =? 0)
  | VFloat (Finite q) => negb (Qnum q =? 0)
  | VFloat _ => true
  | VStr s => negb (String.eqb s "")
  | VList items => match items with [] => false | _ => true end
  | VDict items => match items with [] => false | _ => true end
  end.

(** [data.get(key, dflt)] on the payload dict. *)
Definition get (data : gmap string value) (key : string) (dflt : value) : value :=
  default dflt (data !! key).

End Py.

Notation "'let!' x ':=' r 'in' k" := (Py.bind r (fun x => k))
  (at level 10, x name, r at level 100, k at level 200).

(** ** The timer state *)

(** One entry of [state["bells"]]. *)
Record Bell := {
  enabled : bool;
  at_sec : Z;
  count : Z;
  triggered : bool
}.

(** The dict [state]. *)
Record State := {
  running : bool;
  paused : bool;
  total_sec : Z;
  remaining_sec : Z;
  elapsed_sec : Z;
  bells : list Bell;
  over : bool
}.

(** [state] with the globals [_timer_task], [_start_wall] and
    [_elapsed_at_pause]. [timer_task] is [true] while a [timer_loop] task
    has been scheduled and not cancelled. *)
Record Server := {
  state : State;
  timer_task : bool;
  start_wall : Q;
  elapsed_at_pause : Q
}.

(** What one [sio.emit("state", ...)] sends: the state dict and, when
    present, the key [fire_bells]. *)
Record Emission := {
  snapshot : State;
  fire_bells : option (list Z)
}.

(** The module-level initial value of [state]. *)
Definition initial_state : State := {|
  running := false;
  paused := false;
  total_sec := 3 * 60;
  remaining_sec := 3 * 60;
  elapsed_sec := 0;
  bells := [ {| enabled := true; at_sec := 60; count := 1; triggered := false |};
             {| enabled := true; at_sec := 120; count := 2; triggered := false |};
             {| enabled := true; at_sec := 180; count := 3; triggered := false |} ];
  over := false
|}.

(** The globals when the process starts; [_timer_task] is [None]. *)
Definition initial : Server := {|
  state := initial_state;
  timer_task := false;
  start_wall := 0;
  elapsed_at_pause := 0
|}.

(** [b["triggered"] = v] *)
Definition set_triggered (v : bool) (b : Bell) : Bell :=
  {| enabled := enabled b; at_sec := at_sec b; count := count b; triggered := v |}.

(** [x < y] on floats. *)
Definition Qltb (x y : Q) : bool := negb (Qle_bool y x).

(** ** One iteration of [timer_loop] *)

(** The bell scan, [for i, bell in enumerate(state["bells"])]: [idxs] are
    the indices still to visit, [bells] the list as mutated so far and
    [fired] the batch [bells_fired]. *)
Fixpoint scan_bells (e : Z) (idxs : list nat) (bells : list Bell) (fired : list Z)
  : list Bell * list Z :=
  match idxs with
  | [] => (bells, fired)
  | i :: rest =>
      match bells !! i with
      | Some bell =>
          if enabled bell && negb (triggered bell) then
            if at_sec bell <=? e then
              scan_bells e rest (<[i := set_triggered true bell]> bells)
                         (fired ++ [count bell])
            else scan_bells e rest bells fired
          else scan_bells e rest bells fired
      | None => scan_bells e rest bells fired
      end
  end.

(** The body of the [while] loop after the sleep, at clock reading [now],
    in exact arithmetic: what the code computes when [total_sec] is below
    [2^31] (see the conventions above). *)
Definition timer_tick (now : Q) (sv : Server) : Server * Emission :=
  let st := state sv in
  let elapsed := (elapsed_at_pause sv + (now - start_wall sv))%Q in
  let remaining := (inject_Z (total_sec st) - elapsed)%Q in
  let '(bells', bells_fired) :=
    scan_bells (Py.trunc elapsed) (seq 0 (length (bells st))) (bells st) [] in
  let st' := {|
    running := running st;
    paused := paused st;
    total_sec := total_sec st;
    remaining_sec := Py.trunc remaining;
    elapsed_sec := Py.trunc elapsed;
    bells := bells';
    over := Qltb remaining 0
  |} in
  ({| state := st'; timer_task := timer_task sv;
      start_wall := start_wall sv; elapsed_at_pause := elapsed_at_pause sv |},
   {| snapshot := st';
      fire_bells := match bells_fired with [] => None | _ => Some bells_fired end |}).

(** The loop guard, [state["running"] and not state["paused"]]. *)
Definition ticking (st : State) : bool := running st && negb (paused st).

(** [timer_loop], run on the successive clock readings of its iterations;
    the task is cancelled when [clock] is exhausted. No iteration raises
    here: in the code one does when [total_sec] has no float. *)
Fixpoint timer_loop (clock : list Q) (sv : Server) : Server * list Emission :=
  match clock with
  | [] => (sv, [])
  | now :: later =>
      if ticking (state sv) then
        let '(sv1, e) := timer_tick now sv in
        let '(sv2, es) := timer_loop later sv1 in
        (sv2, e :: es)
      else (sv, [])
  end.

(** ** The command handler *)

(** [data.get("action") == name] *)
Definition is_action (data : gmap string Py.value) (name : string) : bool :=
  match data !! "action" with
  | Some (Py.VStr s) => String.eqb s name
  | _ => false
  end.

(** [await broadcast_state()] *)
Definition broadcast_state (sv : Server) : Emission :=
  {| snapshot := state sv; fire_bells := None |}.

(** The end of [cmd] for every action but [manual_bell]. *)
Definition then_broadcast (sv : Server) : Py.result (Server * list Emission) :=
  Py.Ok (sv, [broadcast_state sv]).

(** Both branches of [start] that act: set the flags, anchor the clock and
    schedule the loop. A start from idle assigns [running] and [paused]; a
    resume assigns [paused] only, [running] being [True] already. *)
Definition start_timer (now : Q) (sv : Server) : Server :=
  let st := state sv in
  {| state := {| running := true; paused := false;
                 total_sec := total_sec st; remaining_sec := remaining_sec st;
                 elapsed_sec := elapsed_sec st; bells := bells st; over := over st |};
     timer_task := true;
     start_wall := now;
     elapsed_at_pause := inject_Z (elapsed_sec st) |}.

(** The branch of [pause] that acts: set the flag, freeze the offset and
    cancel the loop. *)
Definition pause_timer (sv : Server) : Server :=
  let st := state sv in
  {| state := {| running := running st; paused := true;
                 total_sec := total_sec st; remaining_sec := remaining_sec st;
                 elapsed_sec := elapsed_sec st; bells := bells st; over := over st |};
     timer_task := false;
     start_wall := start_wall sv;
     elapsed_at_pause := inject_Z (elapsed_sec st) |}.

(** The assignments of [reset], which also cancels the loop. *)
Definition reset_timer (sv : Server) : Server :=
  let st := state sv in
  {| state := {| running := false; paused := false;
                 total_sec := total_sec st; remaining_sec := total_sec st;
                 elapsed_sec := 0; bells := set_triggered false <$> bells st;
                 over := false |};
     timer_task := false;
     start_wall := start_wall sv;
     elapsed_at_pause := 0 |}.

(** The assignments of [set_total] under [if total > 0]. *)
Definition assign_total (total : Z) (sv : Server) : Server :=
  let st := state sv in
  {| state := {| running := running st; paused := paused st;
                 total_sec := total; remaining_sec := total;
                 elapsed_sec := 0; bells := set_triggered false <$> bells st;
                 over := over st |};
     timer_task := timer_task sv;
     start_wall := start_wall sv;
     elapsed_at_pause := 0 |}.

(** The three assignments of [set_bell] to [state["bells"][idx]]. *)
Definition assign_bell (idx : nat) (at_ : Z) (en : bool) (sv : Server) : Server :=
  let st := state sv in
  let write b :=
    {| enabled := en; at_sec := at_; count := count b; triggered := false |} in
  {| state := {| running := running st; paused := paused st;
                 total_sec := total_sec st; remaining_sec := remaining_sec st;
                 elapsed_sec := elapsed_sec st; bells := alter write idx (bells st);
                 over := over st |};
     timer_task := timer_task sv;
     start_wall := start_wall sv;
     elapsed_at_pause := elapsed_at_pause sv |}.

(** [cmd(sid, data)], called when the clock reads [now]. *)
Definition cmd (now : Q) (data : gmap string Py.value) (sv : Server)
  : Py.result (Server * list Emission) :=
  let st := state sv in
  if is_action data "start" then
    if negb (running st) then then_broadcast (start_timer now sv)
    else if paused st then then_broadcast (start_timer now sv)
    else then_broadcast sv
  else if is_action data "pause" then
    if running st && negb (paused st) then then_broadcast (pause_timer sv)
    else then_broadcast sv
  else if is_action data "reset" then
    then_broadcast (reset_timer sv)
  else if is_action data "set_total" then
    if negb (running st) || paused st then
      let! mins := Py.int (Py.get data "minutes" (Py.VInt 3)) in
      let! secs := Py.int (Py.get data "seconds" (Py.VInt 0)) in
      let total := mins * 60 + secs in
      if 0 <? total then then_broadcast (assign_total total sv)
      else then_broadcast sv
    else then_broadcast sv
  else if is_action data "set_bell" then
    let! idx := Py.int (Py.get data "index" (Py.VInt 0)) in
    if (0 <=? idx) && (idx <? Z.of_nat (length (bells st))) then
      let! mins := Py.int (Py.get data "minutes" (Py.VInt 0)) in
      let! secs := Py.int (Py.get data "seconds" (Py.VInt 0)) in
      let en := Py.truthy (Py.get data "enabled" (Py.VBool true)) in
      then_broadcast (assign_bell (Z.to_nat idx) (mins * 60 + secs) en sv)
    else then_broadcast sv
  else if is_action data "manual_bell" then
    let! count := Py.int (Py.get data "count" (Py.VInt 1)) in
    Py.Ok (sv, [ {| snapshot := st; fire_bells := Some [count] |} ])
  else then_broadcast sv.

(** ** Runs of the server *)

(** What happens to the server: a command arrives, or the loop wakes up. *)
Inductive event :=
| Command (data : gmap string Py.value)
| Tick.

(** A wake-up of the loop finds the task alive and its guard true. *)
Definition tick_enabled (sv : Server) : bool :=
  timer_task sv && ticking (state sv).

(** The server after [ev] at clock reading [now]. A command that raises
    has assigned nothing; no loop iteration runs unless one is enabled. *)
Definition step (now : Q) (ev : event) (sv : Server) : Server :=
  match ev with
  | Command data =>
      match cmd now data sv with
      | Py.Ok (sv', _) => sv'
      | Py.Raise _ => sv
      end
  | Tick => if tick_enabled sv then fst (timer_tick now sv) else sv
  end.

(** [reachable t sv]: the server is in [sv] when the clock reads [t], after
    some events at non-decreasing clock readings since the process began. *)
Inductive reachable : Q -> Server -> Prop :=
| reachable_initial t : reachable t initial
| reachable_step t sv now ev :
    reachable t sv -> (t <= now)%Q -> reachable now (step now ev sv).

(** A payload with nothing but its action. *)
Definition action (name : string) : gmap string Py.value :=
  {[ "action" := Py.VStr name ]}.

(** The server after a script of timed events. *)
Definition run (script : list (Q * event)) (sv : Server) : Server :=
  foldl (fun s '(now, ev) => step now ev s) sv script.

(** The clock readings of a script never go back, starting from [t]. *)
Fixpoint in_order (t : Q) (script : list (Q * event)) : bool :=
  match script with
  | [] => true
  | (now, _) :: rest => Qle_bool t now && in_order now rest
  end.

(** The clock reading of the last event of a script that starts at [t]. *)
Fixpoint end_time (t : Q) (script : list (Q * event)) : Q :=
  match script with
  | [] => t
  | (now, _) :: rest => end_time now rest
  end.

(** ** Notions used in the statements *)

(** The total is positive and below [2^31]: it converts to a float, and
    its difference with an elapsed time that is a multiple of [2^-22]
    below [2^31] is exact in doubles. *)
Definition small_total (st : State) : Prop := 0 < total_sec st < 2 ^ 31.

(** A clock reading such as [time.time()] returns at present: a double
    between [2^30] and [2^31], that is, a multiple of [2^-22] in that
    range. *)
Definition epoch_reading (t : Q) : bool :=
  Qle_bool (inject_Z (2 ^ 30)) t && negb (Qle_bool (inject_Z (2 ^ 31)) t)
  && (2 ^ 22 mod Z.pos (Qden (Qred t)) =? 0).

(** [reachable], for runs whose clock readings are all of that kind. With
    a small total every iteration of such a run computes in doubles what
    [timer_tick] computes exactly. *)
Inductive on_epoch : Q -> Server -> Prop :=
| on_epoch_initial t : epoch_reading t = true -> on_epoch t initial
| on_epoch_step t sv now ev :
    on_epoch t sv -> (t <= now)%Q -> epoch_reading now = true ->
    on_epoch now (step now ev sv).

(** A multiple of [2^-22]. *)
Definition on_grid (q : Q) : Prop := exists k : Z, (q == k # 2 ^ 22)%Q.

(** A multiple of [2^-22] of magnitude below [2^31]: such a number has a
    significand of at most 53 bits, so it is a double, and a sum or a
    difference of doubles whose exact value is such a number is computed
    without rounding. *)
Definition exact_double (q : Q) : Prop :=
  on_grid q /\ (- inject_Z (2 ^ 31) < q)%Q /\ (q < inject_Z (2 ^ 31))%Q.

(** What the anchors of a run on such readings satisfy: the elapsed
    seconds are at most the time since [2^30]; while the loop runs, the
    anchor is a past reading and the offset a whole number of seconds,
    at most the time from [2^30] to the anchor. *)
Record epoch_inv (t : Q) (sv : Server) : Prop := {
  epoch_now : epoch_reading t = true;
  epoch_elapsed :
    (inject_Z (elapsed_sec (state sv)) <= t - inject_Z (2 ^ 30))%Q;
  epoch_anchor :
    ticking (state sv) = true ->
    on_grid (start_wall sv) /\ (start_wall sv <= t)%Q /\
    exists E : Z, elapsed_at_pause sv = inject_Z E /\ 0 <= E /\
                  (inject_Z E <= start_wall sv - inject_Z (2 ^ 30))%Q
}.

(** Every clock reading of the script is of that kind. *)
Definition epoch_script (script : list (Q * event)) : bool :=
  forallb (fun '(now, _) => epoch_reading now) script.

(** The test of the scan: the bell fires on a tick whose truncated elapsed
    time is [e]. *)
Definition rings (e : Z) (b : Bell) : bool :=
  enabled b && negb (triggered b) && (at_sec b <=? e).

(** The bell after the scan. *)
Definition rung (e : Z) (b : Bell) : Bell :=
  if rings e b then set_triggered true b else b.

(** The exact elapsed and remaining time of a tick at [now]. *)
Definition elapsed_at (now : Q) (sv : Server) : Q :=
  (elapsed_at_pause sv + (now - start_wall sv))%Q.

Definition remaining_at (now : Q) (sv : Server) : Q :=
  (inject_Z (total_sec (state sv)) - elapsed_at now sv)%Q.

(** The batch of a tick, as it is put in the payload: the key is absent
    when no bell fired. *)
Definition batch (fired : list Z) : option (list Z) :=
  match fired with [] => None | _ => Some fired end.

(** [int(data.get("index", 0))], when it is a position in range. *)
Definition bell_index (data : gmap string Py.value) (n : nat) : option nat :=
  match Py.int (Py.get data "index" (Py.VInt 0)) with
  | Py.Ok idx => if (0 <=? idx) && (idx <? Z.of_nat n) then Some (Z.to_nat idx) else None
  | Py.Raise _ => None
  end.

(** The assignments a call of [cmd] that returns can have made, with the
    action that makes them. *)
Inductive cmd_effect (now : Q) (data : gmap string Py.value) (sv : Server)
  : Server -> Prop :=
| effect_none : cmd_effect now data sv sv
| effect_start :
    is_action data "start" = true -> ticking (state sv) = false ->
    cmd_effect now data sv (start_timer now sv)
| effect_pause :
    is_action data "pause" = true -> ticking (state sv) = true ->
    cmd_effect now data sv (pause_timer sv)
| effect_reset :
    is_action data "reset" = true -> cmd_effect now data sv (reset_timer sv)
| effect_total total :
    is_action data "set_total" = true -> 0 < total -> ticking (state sv) = false ->
    cmd_effect now data sv (assign_total total sv)
| effect_bell idx at_ en :
    is_action data "set_bell" = true ->
    bell_index data (length (bells (state sv))) = Some idx ->
    (idx < length (bells (state sv)))%nat ->
    cmd_effect now data sv (assign_bell idx at_ en sv).

(** The effect of any event: that of a command, one loop iteration, or
    nothing. *)
Inductive step_effect (now : Q) (sv : Server) : event -> Server -> Prop :=
| effect_cmd data sv' :
    cmd_effect now data sv sv' -> step_effect now sv (Command data) sv'
| effect_tick :
    ticking (state sv) = true -> step_effect now sv Tick (fst (timer_tick now sv))
| effect_asleep : step_effect now sv Tick sv.

(** What holds of the server at clock reading [t] in every run: the total
    is positive, the elapsed seconds are not negative, the remaining
    seconds are at most one short, a negative remainder is flagged, a
    ticking loop is anchored in the past, and a triggered bell is due. *)
Record timer_inv (t : Q) (sv : Server) : Prop := {
  inv_total : 0 < total_sec (state sv);
  inv_elapsed : 0 <= elapsed_sec (state sv);
  inv_remaining :
    remaining_sec (state sv) = total_sec (state sv) - elapsed_sec (state sv) \/
    remaining_sec (state sv) = total_sec (state sv) - elapsed_sec (state sv) - 1;
  inv_over : remaining_sec (state sv) < 0 -> over (state sv) = true;
  inv_clock :
    ticking (state sv) = true ->
    (start_wall sv <= t)%Q /\ (0 <= elapsed_at_pause sv)%Q /\
    elapsed_sec (state sv) <= Py.trunc (elapsed_at t sv);
  inv_bells :
    Forall (fun b => triggered b = true -> at_sec b <= elapsed_sec (state sv))
           (bells (state sv))
}.

(** [int(data.get(key, dflt))] evaluates to [z]: the field is absent and
    [z] is the default, or it is present and converts to [z]. *)
Definition field_is (data : gmap string Py.value) (key : string) (dflt z : Z) : Prop :=
  match data !! key with
  | None => z = dflt
  | Some v => Py.int v = Py.Ok z
  end.

(** The fields that [cmd] passes to [int]. *)
Definition numeric_keys : list string := ["minutes"; "seconds"; "index"; "count"].

(** Every numeric field of the payload is absent or accepted by [int]. *)
Definition convertible (data : gmap string Py.value) : bool :=
  forallb (fun key =>
             match data !! key with
             | None => true
             | Some v => match Py.int v with Py.Ok _ => true | Py.Raise _ => false end
             end) numeric_keys.

(** The event is a [reset] or a [set_total]. *)
Definition ends_cycle (ev : event) : bool :=
  match ev with
  | Command data => is_action data "reset" || is_action data "set_total"
  | Tick => false
  end.

(** [int(data.get("index", 0)) == i] *)
Definition bell_target (i : nat) (data : gmap string Py.value) : bool :=
  match Py.int (Py.get data "index" (Py.VInt 0)) with
  | Py.Ok idx => idx =? Z.of_nat i
  | Py.Raise _ => false
  end.

(** The event may clear the flag of bell [i]: it ends the cycle, or it is
    a [set_bell] for that bell. *)
Definition rearms (i : nat) (ev : event) : bool :=
  ends_cycle ev ||
  match ev with
  | Command data => is_action data "set_bell" && bell_target i data
  | Tick => false
  end.

(** No event of the script may clear the flag of bell [i]. *)
Definition no_rearm (i : nat) (script : list (Q * event)) : bool :=
  forallb (fun '(_, ev) => negb (rearms i ev)) script.

(** Bell [i] exists and its flag is set. *)
Definition is_triggered (i : nat) (sv : Server) : Prop :=
  exists b, bells (state sv) !! i = Some b /\ triggered b = true.

(** Bell [i] fires at this event: the event is a loop iteration that runs
    and the scan finds the bell due. *)
Definition fires (i : nat) (now : Q) (ev : event) (sv : Server) : bool :=
  match ev with
  | Tick =>
      tick_enabled sv &&
      match bells (state sv) !! i with
      | Some b => rings (Py.trunc (elapsed_at now sv)) b
      | None => false
      end
  | Command _ => false
  end.

(** How many times bell [i] fires along a script. *)
Fixpoint fire_count (i : nat) (script : list (Q * event)) (sv : Server) : nat :=
  match script with
  | [] => 0
  | (now, ev) :: rest =>
      ((if fires i now ev sv then 1 else 0) + fire_count i rest (step now ev sv))%nat
  end.

(** The script stays within one run-cycle: no [reset], no [set_total]. *)
Definition within_cycle (script : list (Q * event)) : bool :=
  forallb (fun '(_, ev) => negb (ends_cycle ev)) script.

(** ** Sample payloads, scripts and servers *)

(** [set_total] whose minutes are the string [abc]. *)
Definition word_minutes : gmap string Py.value :=
  <["minutes" := Py.VStr "abc"]> (action "set_total").

(** [manual_bell] whose count is [None] (JSON [null]). *)
Definition null_count : gmap string Py.value :=
  <["count" := Py.VNone]> (action "manual_bell").

(** [set_total] to zero minutes and zero seconds. *)
Definition zero_total : gmap string Py.value :=
  <["seconds" := Py.VInt 0]> (<["minutes" := Py.VInt 0]> (action "set_total")).

(** [set_total] to five minutes. *)
Definition five_minutes : gmap string Py.value :=
  <["seconds" := Py.VInt 0]> (<["minutes" := Py.VInt 5]> (action "set_total")).

(** [manual_bell] with two chimes. *)
Definition two_chimes : gmap string Py.value :=
  <["count" := Py.VInt 2]> (action "manual_bell").

(** [set_bell] for bell 0 at one minute. *)
Definition bell0_at_minute : gmap string Py.value :=
  <["minutes" := Py.VInt 1]> (<["index" := Py.VInt 0]> (action "set_bell")).

(** [set_bell] for bell 1 at one minute. *)
Definition bell1_at_minute : gmap string Py.value :=
  <["minutes" := Py.VInt 1]> (<["index" := Py.VInt 1]> (action "set_bell")).

(** Start at clock reading 1000, then one loop iteration half a second
    later. *)
Definition half_second_run : list (Q * event) :=
  [ (1000%Q, Command (action "start")); ((2001 # 2)%Q, Tick) ].

(** The same half second when the clock reads 1700000000 at the start. *)
Definition epoch_half_second_run : list (Q * event) :=
  [ (1700000000%Q, Command (action "start")); ((3400000001 # 2)%Q, Tick) ].

(** Start at clock reading 1000, then one loop iteration half a second
    after the three minutes are over. *)
Definition overtime_run : list (Q * event) :=
  [ (1000%Q, Command (action "start")); ((2361 # 2)%Q, Tick) ].

(** Start at clock reading 1000, then one loop iteration two and a half
    seconds after the three minutes are over. *)
Definition late_run : list (Q * event) :=
  [ (1000%Q, Command (action "start")); ((2365 # 2)%Q, Tick) ].

(** Start at clock reading 1000, then one loop iteration a minute later. *)
Definition minute_run : list (Q * event) :=
  [ (1000%Q, Command (action "start")); (1060%Q, Tick) ].

(** After bell 0 has fired: a pause, a [set_bell] for bell 1, a resume and
    a further loop iteration. *)
Definition busy_script : list (Q * event) :=
  [ (1070%Q, Command (action "pause"));
    (1075%Q, Command (<["index" := Py.VInt 1]> (action "set_bell")));
    (1080%Q, Command (action "start"));
    (1081%Q, Tick) ].

(** After the start at clock reading 1000: bell 0 fires at one minute, a
    [set_bell] puts it at one minute again, and it fires once more. *)
Definition rearm_script : list (Q * event) :=
  [ (1060%Q, Tick); (1061%Q, Command bell0_at_minute); (1062%Q, Tick) ].

(** Scenario 6 of the specification: bell 1 is put at one minute, like
    bell 0, and the timer is started at clock reading 1000. *)
Definition twin_bells : Server :=
  run [ (990%Q, Command bell1_at_minute); (1000%Q, Command (action "start")) ] initial.

(** Scenario 2 of the specification: thirty seconds of run, a pause, ten
    seconds of wait, then the resume at clock reading 1040. *)
Definition paused_at_30 : Server :=
  run [ (1000%Q, Command (action "start")); ((10301 # 10)%Q, Tick);
        ((10302 # 10)%Q, Command (action "pause")) ] initial.

(** ** Notions used in the further properties *)

(** The actions that [cmd] tests for. *)
Definition known_actions : list string :=
  ["start"; "pause"; "reset"; "set_total"; "set_bell"; "manual_bell"].

(** The payload carries none of the known actions: the key is absent, its
    value is no string, or it is another string. *)
Definition unknown_action (data : gmap string Py.value) : bool :=
  forallb (fun a => negb (is_action data a)) known_actions.

(** The fields of the state that tell the time. *)
Definition timing (st : State) : bool * bool * Z * Z * Z * bool :=
  (running st, paused st, total_sec st, remaining_sec st, elapsed_sec st, over st).

(** The event is no [start], no [reset] and no [set_total]. *)
Definition keeps_time (ev : event) : bool :=
  match ev with
  | Command data =>
      negb (is_action data "start" || is_action data "reset"
            || is_action data "set_total")
  | Tick => true
  end.

Definition standing (script : list (Q * event)) : bool :=
  forallb (fun '(_, ev) => keeps_time ev) script.

(** The event is a [set_bell] for bell [i]. *)
Definition retargets (i : nat) (ev : event) : bool :=
  match ev with
  | Command data => is_action data "set_bell" && bell_target i data
  | Tick => false
  end.

Definition untouched (i : nat) (script : list (Q * event)) : bool :=
  forallb (fun '(_, ev) => negb (retargets i ev)) script.

(** What [set_bell] leaves of a bell to the operator: the settings without
    the flag. *)
Definition settings (b : Bell) : bool * Z * Z := (enabled b, at_sec b, count b).

(** Bell [i] exists and is disabled. *)
Definition is_disabled (i : nat) (sv : Server) : Prop :=
  exists b, bells (state sv) !! i = Some b /\ enabled b = false.

(** The chimes that an event asks for: those of its [fire_bells], none
    when the key is absent. *)
Definition chimes (sent : Emission) : list Z := default [] (fire_bells sent).

(** A payload with no key at all. *)
Definition no_action : gmap string Py.value := ∅.

(** [set_bell] for bell 7, which does not exist, with minutes that [int]
    rejects. *)
Definition bell7_word : gmap string Py.value :=
  <["minutes" := Py.VStr "abc"]> (<["index" := Py.VInt 7]> (action "set_bell")).

(** [set_bell] that disables bell 0 and puts it at ten seconds. *)
Definition bell0_off : gmap string Py.value :=
  <["enabled" := Py.VBool false]>
    (<["seconds" := Py.VInt 10]> (<["index" := Py.VInt 0]> (action "set_bell"))).

(** The default run with bell 0 disabled beforehand, started at clock
    reading 1000. *)
Definition bell0_disabled : Server :=
  run [ (990%Q, Command bell0_off); (1000%Q, Command (action "start")) ] initial.

(** Two minutes of ticks, a [set_bell] for bell 1 and a pause. *)
Definition two_minutes_script : list (Q * event) :=
  [ (1030%Q, Tick); (1060%Q, Tick);
    (1061%Q, Command (<["index" := Py.VInt 1]> (action "set_bell")));
    (1120%Q, Tick); (1125%Q, Command (action "pause")) ].

(** While paused: loop wake-ups, a [set_bell], a [manual_bell], a second
    pause and an unknown action. *)
Definition idle_script : list (Q * event) :=
  [ ((10303 # 10)%Q, Tick); (1035%Q, Command bell0_at_minute);
    (1036%Q, Command two_chimes); (1037%Q, Command (action "pause"));
    (1038%Q, Command (action "stop")); (1039%Q, Tick) ].

(** * Part II: properties *)

(** ** The conversions of a payload field, on examples *)

Example int_of_string_plain : Py.int (Py.VStr "42") = Py.Ok 42.
Proof. reflexivity. Qed.

Example int_of_string_blanks : Py.int (Py.VStr "  -1_000 ") = Py.Ok (-1000).
Proof. reflexivity. Qed.

Example int_of_string_word : Py.int (Py.VStr "abc") = Py.Raise Py.ValueError.
Proof. reflexivity. Qed.

Example int_of_string_fraction : Py.int (Py.VStr "1.5") = Py.Raise Py.ValueError.
Proof. reflexivity. Qed.

Example int_of_string_double_underscore :
  Py.int (Py.VStr "1__0") = Py.Raise Py.ValueError.
Proof. reflexivity. Qed.

Example int_of_float_down : Py.int (Py.VFloat (Py.Finite (5 # 2))) = Py.Ok 2.
Proof. reflexivity. Qed.

Example int_of_float_up : Py.int (Py.VFloat (Py.Finite (- 5 # 2))) = Py.Ok (-2).
Proof. reflexivity. Qed.

(** ** Truncation of clock arithmetic *)

Section Truncation.

Local Open Scope Q_scope.

Lemma inject_Z_sub (a b : Z) : inject_Z (a - b) = inject_Z a - inject_Z b.
Proof. unfold Z.sub, Qminus. now rewrite inject_Z_plus, inject_Z_opp. Qed.

Lemma inject_Z_succ (a : Z) : inject_Z (a + 1) = inject_Z a + 1.
Proof. now rewrite inject_Z_plus. Qed.

Lemma inject_Z_pred (a : Z) : inject_Z (a - 1) = inject_Z a - 1.
Proof. now rewrite inject_Z_sub. Qed.

Lemma Qltb_true (x y : Q) : Qltb x y = true <-> x < y.
Proof.
  unfold Qltb. rewrite negb_true_iff, <- not_true_iff_false, Qle_bool_iff.
  split; [apply Qnot_le_lt | apply Qlt_not_le].
Qed.

(** An integer strictly below another rational bound. *)
Lemma Z_lt_of_Q (a b : Z) (q : Q) :
  inject_Z a <= q -> q < inject_Z b -> (a < b)%Z.
Proof. intros Ha Hb. rewrite Zlt_Qlt. lra. Qed.

Lemma Z_lt_of_Q' (a b : Z) (q : Q) :
  inject_Z a < q -> q <= inject_Z b -> (a < b)%Z.
Proof. intros Ha Hb. rewrite Zlt_Qlt. lra. Qed.

Lemma Qfloor_bounds (q : Q) :
  inject_Z (Qfloor q) <= q /\ q < inject_Z (Qfloor q) + 1.
Proof.
  split; [apply Qfloor_le |]. rewrite <- inject_Z_succ. apply Qlt_floor.
Qed.

Lemma Qceiling_bounds (q : Q) :
  inject_Z (Qceiling q) - 1 < q /\ q <= inject_Z (Qceiling q).
Proof.
  split; [| apply Qle_ceiling]. rewrite <- inject_Z_pred. apply Qceiling_lt.
Qed.

Lemma Qfloor_eq (z : Z) (q : Q) :
  inject_Z z <= q -> q < inject_Z z + 1 -> Qfloor q = z.
Proof.
  intros Hlo Hhi. destruct (Qfloor_bounds q) as [Flo Fhi].
  rewrite <- inject_Z_succ in Hhi, Fhi.
  pose proof (Z_lt_of_Q _ _ _ Hlo Fhi). pose proof (Z_lt_of_Q _ _ _ Flo Hhi). lia.
Qed.

Lemma Qceiling_eq (z : Z) (q : Q) :
  inject_Z z - 1 < q -> q <= inject_Z z -> Qceiling q = z.
Proof.
  intros Hlo Hhi. destruct (Qceiling_bounds q) as [Clo Chi].
  rewrite <- inject_Z_pred in Hlo, Clo.
  pose proof (Z_lt_of_Q' _ _ _ Hlo Chi). pose proof (Z_lt_of_Q' _ _ _ Clo Hhi). lia.
Qed.

Lemma Qnum_sign_nonneg (q : Q) : 0 <= q <-> (0 <= Qnum q)%Z.
Proof. unfold Qle. simpl. lia. Qed.

(** [int()] of a float that is not negative rounds down. *)
Lemma trunc_nonneg (q : Q) : 0 <= q -> Py.trunc q = Qfloor q.
Proof.
  intros H%Qnum_sign_nonneg. unfold Py.trunc. destruct q as [n d]; simpl in *.
  apply Z.quot_div_nonneg; lia.
Qed.

(** [int()] of a float that is not positive rounds up. *)
Lemma trunc_nonpos (q : Q) : q <= 0 -> Py.trunc q = Qceiling q.
Proof.
  intros H. unfold Py.trunc, Qceiling. destruct q as [n d]; simpl.
  assert (Hn : (n <= 0)%Z) by (unfold Qle in H; simpl in H; lia).
  rewrite <- (Z.opp_involutive n) at 1. rewrite Z.quot_opp_l by lia.
  f_equal. apply Z.quot_div_nonneg; lia.
Qed.

Lemma trunc_nonneg_le (q : Q) : 0 <= q -> (0 <= Py.trunc q)%Z.
Proof.
  intros H. rewrite trunc_nonneg by done.
  rewrite <- (Qfloor_Z 0). now apply Qfloor_resp_le.
Qed.

Lemma trunc_mono (p q : Q) : 0 <= p -> p <= q -> (Py.trunc p <= Py.trunc q)%Z.
Proof.
  intros Hp Hpq. rewrite !trunc_nonneg by lra. now apply Qfloor_resp_le.
Qed.

(** An integer offset passes through the truncation of a sum whose terms
    are not negative. *)
Lemma trunc_offset (E : Z) (d : Q) :
  (0 <= E)%Z -> 0 <= d -> Py.trunc (inject_Z E + d) = (E + Qfloor d)%Z.
Proof.
  intros HE Hd. rewrite Zle_Qle in HE. destruct (Qfloor_bounds d).
  rewrite trunc_nonneg by (change (inject_Z 0) with 0 in HE; lra).
  apply Qfloor_eq; rewrite inject_Z_plus; lra.
Qed.

(** Truncating the remaining time against truncating the elapsed time:
    the two agree, or the remaining seconds are one short. *)
Lemma trunc_remaining (T : Z) (e : Q) :
  (0 < T)%Z ->
  let r := Py.trunc (inject_Z T - e) in
  (r = T - Py.trunc e \/ r = T - Py.trunc e - 1)%Z.
Proof.
  intros HT r. subst r. rewrite Zlt_Qlt in HT. change (inject_Z 0) with 0 in HT.
  destruct (Qlt_le_dec e 0) as [He | He].
  - rewrite (trunc_nonpos e) by lra. destruct (Qceiling_bounds e).
    rewrite trunc_nonneg by lra. left. apply Qfloor_eq; rewrite inject_Z_sub; lra.
  - rewrite (trunc_nonneg e) by lra. destruct (Qfloor_bounds e).
    destruct (Qlt_le_dec (inject_Z T - e) 0) as [Hr | Hr].
    + rewrite trunc_nonpos by lra. left. apply Qceiling_eq; rewrite inject_Z_sub; lra.
    + rewrite trunc_nonneg by lra.
      destruct (Qlt_le_dec (inject_Z (Qfloor e)) e).
      * right. apply Qfloor_eq; rewrite inject_Z_pred, inject_Z_sub; lra.
      * left. apply Qfloor_eq; rewrite inject_Z_sub; lra.
Qed.

(** The two agree exactly when the elapsed time is whole or the time is up. *)
Lemma trunc_remaining_exact (T : Z) (e : Q) :
  (0 < T)%Z -> 0 <= e ->
  (Py.trunc (inject_Z T - e) = T - Py.trunc e)%Z <->
  (e == inject_Z (Py.trunc e) \/ inject_Z T < e).
Proof.
  intros HT He. rewrite Zlt_Qlt in HT. change (inject_Z 0) with 0 in HT.
  rewrite (trunc_nonneg e) by lra. destruct (Qfloor_bounds e).
  destruct (Qlt_le_dec (inject_Z T - e) 0) as [Hr | Hr].
  - split; [intros _; right; lra | intros _].
    rewrite trunc_nonpos by lra. apply Qceiling_eq; rewrite inject_Z_sub; lra.
  - rewrite trunc_nonneg by lra. split.
    + intros Heq. left. destruct (Qfloor_bounds (inject_Z T - e)) as [Hlo Hhi].
      rewrite Heq, inject_Z_sub in Hlo. lra.
    + intros [Hw | Hover]; [| lra]. apply Qfloor_eq; rewrite inject_Z_sub; lra.
Qed.

(** A negative truncated remainder comes from a negative remainder, and
    a negative remainder truncates to zero or less. *)
Lemma trunc_neg (q : Q) : (Py.trunc q < 0)%Z -> q < 0.
Proof.
  intros H. destruct (Qlt_le_dec q 0) as [|Hq]; [done |].
  apply trunc_nonneg_le in Hq. lia.
Qed.

Lemma trunc_of_neg (q : Q) : q < 0 -> (Py.trunc q <= 0)%Z.
Proof.
  intros H. rewrite trunc_nonpos by lra. destruct (Qceiling_bounds q) as [Hlo _].
  rewrite <- inject_Z_pred in Hlo.
  assert (Hz : inject_Z (Qceiling q - 1) < inject_Z 0) by (change (inject_Z 0) with 0; lra).
  rewrite <- Zlt_Qlt in Hz. lia.
Qed.

End Truncation.

(** ** The bell scan in closed form *)

(** The scan from index [k] on: the bells before [k] are left as the scan
    found them, the others are rung when due. *)
Lemma scan_bells_from (e : Z) (n k : nat) (bs : list Bell) (fired : list Z) :
  (k + n)%nat = length bs ->
  scan_bells e (seq k n) bs fired =
    (take k bs ++ (rung e <$> drop k bs),
     fired ++ (count <$> List.filter (rings e) (drop k bs))).
Proof.
  revert k bs fired. induction n as [| n IH]; intros k bs fired Hlen; simpl.
  - rewrite drop_ge, take_ge by lia. simpl. now rewrite !app_nil_r.
  - destruct (bs !! k) as [bell |] eqn:Hk.
    2: { apply lookup_ge_None in Hk. lia. }
    rewrite (drop_S _ _ _ Hk). simpl. unfold rung at 1.
    destruct (rings e bell) eqn:Hr; unfold rings in Hr;
      destruct (enabled bell && negb (triggered bell));
      destruct (at_sec bell <=? e); simpl in Hr; try discriminate; simpl.
    all: try (rewrite IH by lia; rewrite (take_S_r _ _ _ Hk);
              now rewrite <- app_assoc).
    rewrite IH by (rewrite length_insert; lia).
    rewrite drop_insert_lt by lia.
    rewrite (take_S_r _ _ (set_triggered true bell)).
    2: { apply list_lookup_insert_eq. apply lookup_lt_Some in Hk. lia. }
    rewrite take_insert_ge by lia.
    now rewrite <- !app_assoc.
Qed.

(** The scan in closed form: every bell is visited once, in order. *)
Lemma scan_bells_all (e : Z) (bs : list Bell) :
  scan_bells e (seq 0 (length bs)) bs [] =
    (rung e <$> bs, count <$> List.filter (rings e) bs).
Proof. now rewrite scan_bells_from. Qed.

(** One loop iteration, with the scan in closed form. *)
Lemma timer_tick_unfold (now : Q) (sv : Server) :
  let st := state sv in
  let e := Py.trunc (elapsed_at now sv) in
  let st' := {|
    running := running st; paused := paused st; total_sec := total_sec st;
    remaining_sec := Py.trunc (remaining_at now sv);
    elapsed_sec := e;
    bells := rung e <$> bells st;
    over := Qltb (remaining_at now sv) 0 |} in
  timer_tick now sv =
    ({| state := st'; timer_task := timer_task sv;
        start_wall := start_wall sv; elapsed_at_pause := elapsed_at_pause sv |},
     {| snapshot := st';
        fire_bells := batch (count <$> List.filter (rings e) (bells st)) |}).
Proof.
  intros st e st'. unfold timer_tick. fold st.
  fold (elapsed_at now sv). fold (remaining_at now sv). fold e.
  now rewrite scan_bells_all.
Qed.

Lemma rings_due (e : Z) (b : Bell) : rings e b = true -> at_sec b <= e.
Proof. unfold rings. rewrite !andb_true_iff. lia. Qed.

Lemma rings_spec (e : Z) (b : Bell) :
  rings e b = true <-> enabled b = true /\ triggered b = false /\ at_sec b <= e.
Proof.
  unfold rings. rewrite !andb_true_iff, negb_true_iff, Z.leb_le. tauto.
Qed.

Lemma rung_triggered (e : Z) (b : Bell) : triggered b = true -> rung e b = b.
Proof. unfold rung, rings. intros ->. now rewrite andb_false_r. Qed.

(** ** What a command can do to the server *)

Lemma ticking_false (st : State) :
  ticking st = false <-> negb (running st) || paused st = true.
Proof. unfold ticking. destruct (running st), (paused st); simpl; intuition congruence. Qed.

Lemma idle_or_paused (st : State) :
  running st = false \/ paused st = true <-> ticking st = false.
Proof. unfold ticking. destruct (running st), (paused st); simpl; intuition congruence. Qed.

Lemma bind_Ok {A B} (r : Py.result A) (k : A -> Py.result B) (b : B) :
  Py.bind r k = Py.Ok b -> exists a, r = Py.Ok a /\ k a = Py.Ok b.
Proof. destruct r; simpl; [eauto | discriminate]. Qed.

Ltac invert_broadcast H :=
  unfold then_broadcast in H; injection H as <- <-.

(** A call of [cmd] that returns has made one of the listed effects. *)
Lemma cmd_effects (now : Q) (data : gmap string Py.value) (sv sv' : Server)
    (out : list Emission) :
  cmd now data sv = Py.Ok (sv', out) -> cmd_effect now data sv sv'.
Proof.
  unfold cmd. intros H.
  destruct (is_action data "start") eqn:Hstart.
  { destruct (running (state sv)) eqn:Hrun; simpl in H.
    - destruct (paused (state sv)) eqn:Hp; invert_broadcast H;
        [apply effect_start; [done |]; unfold ticking; now rewrite Hrun, Hp
        | constructor].
    - invert_broadcast H. apply effect_start; [done |].
      unfold ticking. now rewrite Hrun. }
  destruct (is_action data "pause") eqn:Hpause.
  { destruct (running (state sv) && negb (paused (state sv))) eqn:Ht;
      invert_broadcast H; [now apply effect_pause | constructor]. }
  destruct (is_action data "reset") eqn:Hreset.
  { invert_broadcast H. now constructor. }
  destruct (is_action data "set_total") eqn:Htotal.
  { destruct (negb (running (state sv)) || paused (state sv)) eqn:Hidle.
    - apply bind_Ok in H as (mins & _ & H). apply bind_Ok in H as (secs & _ & H).
      destruct (0 <? mins * 60 + secs) eqn:Hpos; invert_broadcast H.
      + apply effect_total; [done | lia | now apply ticking_false].
      + constructor.
    - invert_broadcast H. constructor. }
  destruct (is_action data "set_bell") eqn:Hbell.
  { apply bind_Ok in H as (idx & Hidx & H).
    destruct ((0 <=? idx) && (idx <? Z.of_nat (length (bells (state sv))))) eqn:Hin.
    - apply bind_Ok in H as (mins & _ & H). apply bind_Ok in H as (secs & _ & H).
      invert_broadcast H. apply effect_bell; [done | | lia].
      unfold bell_index. now rewrite Hidx, Hin.
    - invert_broadcast H. constructor. }
  destruct (is_action data "manual_bell").
  { apply bind_Ok in H as (c & _ & H). injection H as <- <-. constructor. }
  invert_broadcast H. constructor.
Qed.

Lemma step_effects (now : Q) (ev : event) (sv : Server) :
  step_effect now sv ev (step now ev sv).
Proof.
  destruct ev as [data |]; simpl.
  - destruct (cmd now data sv) as [[sv' out] | e] eqn:H.
    + apply effect_cmd. eapply cmd_effects, H.
    + apply effect_cmd. constructor.
  - unfold tick_enabled. destruct (timer_task sv); simpl.
    + destruct (ticking (state sv)) eqn:Ht; [now apply effect_tick |].
      apply effect_asleep.
    + apply effect_asleep.
Qed.

(** ** The branches of [cmd] *)

(** The payload has one action: knowing it decides every test of [cmd]. *)
Lemma is_action_other (data : gmap string Py.value) (a b : string) :
  is_action data a = true -> is_action data b = String.eqb a b.
Proof.
  unfold is_action. destruct (data !! "action") as [[| | | | s | |] |]; try discriminate.
  now intros ->%String.eqb_eq.
Qed.

(** Rewrite every test of the action in the goal, given the action. *)
Ltac choose_action H :=
  unfold cmd; rewrite !(is_action_other _ _ _ H); simpl.

Lemma field_is_int (data : gmap string Py.value) (key : string) (dflt z : Z) :
  field_is data key dflt z -> Py.int (Py.get data key (Py.VInt dflt)) = Py.Ok z.
Proof.
  unfold field_is, Py.get. destruct (data !! key); simpl; [done | now intros ->].
Qed.

Lemma field_is_present (data : gmap string Py.value) (key : string) (dflt z : Z) :
  data !! key = Some (Py.VInt z) -> field_is data key dflt z.
Proof. unfold field_is. now intros ->. Qed.

Lemma cmd_start (now : Q) (data : gmap string Py.value) (sv : Server) :
  is_action data "start" = true -> ticking (state sv) = false ->
  cmd now data sv = then_broadcast (start_timer now sv).
Proof.
  intros Hact Ht. choose_action Hact. unfold ticking in Ht.
  destruct (running (state sv)), (paused (state sv)); simpl in *; done.
Qed.

Lemma cmd_set_total_running (now : Q) (data : gmap string Py.value) (sv : Server) :
  is_action data "set_total" = true -> ticking (state sv) = true ->
  cmd now data sv = then_broadcast sv.
Proof.
  intros Hact Ht. choose_action Hact.
  unfold ticking in Ht. apply andb_true_iff in Ht as [-> ->%negb_true_iff]. done.
Qed.

Lemma cmd_set_total (now : Q) (data : gmap string Py.value) (sv : Server) (m s : Z) :
  is_action data "set_total" = true -> ticking (state sv) = false ->
  field_is data "minutes" 3 m -> field_is data "seconds" 0 s ->
  cmd now data sv =
    then_broadcast (if 0 <? m * 60 + s then assign_total (m * 60 + s) sv else sv).
Proof.
  intros Hact Ht%ticking_false Hm%field_is_int Hs%field_is_int. choose_action Hact.
  rewrite Ht, Hm, Hs. simpl. now destruct (0 <? m * 60 + s).
Qed.

Lemma cmd_set_bell (now : Q) (data : gmap string Py.value) (sv : Server) (i m s : Z) :
  is_action data "set_bell" = true ->
  field_is data "index" 0 i -> field_is data "minutes" 0 m ->
  field_is data "seconds" 0 s ->
  cmd now data sv =
    then_broadcast
      (if (0 <=? i) && (i <? Z.of_nat (length (bells (state sv))))
       then assign_bell (Z.to_nat i) (m * 60 + s)
              (Py.truthy (Py.get data "enabled" (Py.VBool true))) sv
       else sv).
Proof.
  intros Hact Hi%field_is_int Hm%field_is_int Hs%field_is_int. choose_action Hact.
  rewrite Hi. simpl.
  destruct ((0 <=? i) && (i <? Z.of_nat (length (bells (state sv))))); [| done].
  now rewrite Hm, Hs.
Qed.

Lemma cmd_manual_bell (now : Q) (data : gmap string Py.value) (sv : Server) (c : Z) :
  is_action data "manual_bell" = true -> field_is data "count" 1 c ->
  cmd now data sv =
    Py.Ok (sv, [ {| snapshot := state sv; fire_bells := Some [c] |} ]).
Proof. intros Hact Hc%field_is_int. choose_action Hact. now rewrite Hc. Qed.

(** ** The invariant of reachable servers *)

Lemma timer_inv_initial (t : Q) : timer_inv t initial.
Proof.
  split; simpl; try lia; try discriminate.
  repeat constructor; simpl; discriminate.
Qed.

Lemma elapsed_at_nonneg (t : Q) (sv : Server) :
  (start_wall sv <= t)%Q -> (0 <= elapsed_at_pause sv)%Q -> (0 <= elapsed_at t sv)%Q.
Proof. unfold elapsed_at. intros. lra. Qed.

(** The invariant survives the passing of time. *)
Lemma timer_inv_later (t now : Q) (sv : Server) :
  timer_inv t sv -> (t <= now)%Q -> timer_inv now sv.
Proof.
  intros [] Hle. split; try done.
  intros Ht. destruct (inv_clock0 Ht) as (Hsw & Hoff & Hel).
  split; [lra | split; [done |]].
  etrans; [exact Hel |]. apply trunc_mono.
  - now apply elapsed_at_nonneg.
  - unfold elapsed_at. lra.
Qed.

Lemma Forall_untriggered (P : Bell -> Prop) (bs : list Bell) :
  (forall b, P (set_triggered false b)) -> Forall P (set_triggered false <$> bs).
Proof. intros HP. apply Forall_fmap, Forall_forall. intros b _. apply HP. Qed.

(** The invariant survives every command. *)
Lemma timer_inv_cmd (now : Q) (data : gmap string Py.value) (sv sv' : Server) :
  timer_inv now sv -> cmd_effect now data sv sv' -> timer_inv now sv'.
Proof.
  intros Hinv Heff. destruct Hinv.
  destruct Heff as [| _ Ht | _ Ht | _ | total _ Hpos Ht | idx at_ en _ _ Hidx].
  - split; done.
  - split; simpl; try done. intros _.
    split; [lra | split].
    + rewrite Zle_Qle in inv_elapsed0. exact inv_elapsed0.
    + unfold elapsed_at. simpl.
      rewrite trunc_offset by (lia || lra).
      rewrite (Qfloor_eq 0) by (change (inject_Z 0) with 0%Q; lra). lia.
  - split; simpl; try done. unfold ticking in *. simpl.
    destruct (running (state sv)); simpl; discriminate.
  - split; simpl; try done; try lia.
    apply Forall_untriggered. simpl. discriminate.
  - split; simpl; try done; try lia.
    + unfold ticking in *. simpl. now rewrite Ht.
    + apply Forall_untriggered. simpl. discriminate.
  - split; simpl; try done.
    apply Forall_lookup. intros i b Hb Htrig.
    rewrite list_lookup_alter in Hb. case_decide as Hi.
    + destruct (bells (state sv) !! idx); simplify_eq/=.
    + rewrite Forall_lookup in inv_bells0. eapply inv_bells0; eauto.
Qed.

(** The invariant survives every loop iteration. *)
Lemma timer_inv_tick (now : Q) (sv : Server) :
  timer_inv now sv -> ticking (state sv) = true ->
  timer_inv now (fst (timer_tick now sv)).
Proof.
  intros [] Ht. rewrite timer_tick_unfold. simpl.
  destruct (inv_clock0 Ht) as (Hsw & Hoff & Hel).
  pose proof (elapsed_at_nonneg _ _ Hsw Hoff) as Hnn.
  split; simpl; try done.
  - now apply trunc_nonneg_le.
  - now apply trunc_remaining.
  - intros Hneg%trunc_neg. now apply Qltb_true.
  - apply Forall_fmap. eapply Forall_impl; [exact inv_bells0 |].
    intros b Hb. simpl. unfold rung. destruct (rings _ b) eqn:Hr.
    + intros _. simpl. now apply rings_due.
    + intros Htrig. specialize (Hb Htrig). lia.
Qed.

(** Every reachable server satisfies the invariant. *)
Theorem reachable_inv (t : Q) (sv : Server) : reachable t sv -> timer_inv t sv.
Proof.
  induction 1 as [t | t sv now ev _ IH Hle].
  - apply timer_inv_initial.
  - apply (timer_inv_later _ now) in IH; [| done].
    destruct (step_effects now ev sv) as [data sv' Heff | Ht |].
    + eapply timer_inv_cmd; eauto.
    + now apply timer_inv_tick.
    + done.
Qed.

(** ** Scripted runs *)

(** A script whose clock readings are in order leads to a reachable
    server. *)
Lemma reachable_run (t : Q) (sv : Server) (script : list (Q * event)) :
  reachable t sv -> in_order t script = true ->
  reachable (end_time t script) (run script sv).
Proof.
  revert t sv. induction script as [| [now ev] rest IH]; intros t sv Hr Hord; simpl.
  - done.
  - simpl in Hord. apply andb_true_iff in Hord as [Hle%Qle_bool_iff Hrest].
    apply IH; [| done]. now apply reachable_step with t.
Qed.

Example half_second_state :
  let st := state (run half_second_run initial) in
  (total_sec st, elapsed_sec st, remaining_sec st, over st) = (180, 0, 179, false).
Proof. reflexivity. Qed.

Example overtime_state :
  let st := state (run overtime_run initial) in
  (total_sec st, elapsed_sec st, remaining_sec st, over st) = (180, 180, 0, true).
Proof. reflexivity. Qed.

Example paused_at_30_state :
  (running (state paused_at_30), paused (state paused_at_30),
   elapsed_sec (state paused_at_30)) = (true, true, 30).
Proof. reflexivity. Qed.

Example rearm_script_batches :
  let sv0 := start_timer 1000 initial in
  let sv1 := step 1060 Tick sv0 in
  let sv2 := step 1061 (Command bell0_at_minute) sv1 in
  fire_bells (snd (timer_tick 1060 sv0)) = Some [1] /\
  fire_bells (snd (timer_tick 1062 sv2)) = Some [1].
Proof. split; reflexivity. Qed.

(** [set_total] leaves [over] as it was: paused in overtime, a new total
    gives a positive [remaining_sec] under a flag that is still set, until
    the next loop iteration or [reset]. *)
Example set_total_keeps_over :
  let script := overtime_run ++
    [ (1200%Q, Command (action "pause"));
      (1210%Q, Command (<["minutes" := Py.VInt 5]> (action "set_total"))) ] in
  let st := state (run script initial) in
  (total_sec st, elapsed_sec st, remaining_sec st, over st) = (300, 0, 300, true).
Proof. reflexivity. Qed.

(** ** C1: remaining seconds against elapsed seconds *)

(** C1, as stated, fails: half a second into the default run the state
    holds [elapsed_sec = 0] and [remaining_sec = 179] with
    [total_sec = 180]. *)
Lemma remaining_sec_not_total_minus_elapsed :
  ~ (forall t sv, reachable t sv ->
       remaining_sec (state sv) = total_sec (state sv) - elapsed_sec (state sv)).
Proof.
  intros H.
  specialize (H _ _ (reachable_run 0 initial half_second_run
                       (reachable_initial 0) eq_refl)).
  vm_compute in H. discriminate.
Qed.

Lemma on_epoch_reachable (t : Q) (sv : Server) : on_epoch t sv -> reachable t sv.
Proof. induction 1; [apply reachable_initial | now apply reachable_step with t]. Qed.

Lemma on_epoch_run (t : Q) (sv : Server) (script : list (Q * event)) :
  on_epoch t sv -> in_order t script = true -> epoch_script script = true ->
  on_epoch (end_time t script) (run script sv).
Proof.
  revert t sv. induction script as [| [now ev] rest IH]; intros t sv Hr Hord Hep; simpl.
  - done.
  - simpl in Hord, Hep.
    apply andb_true_iff in Hord as [Hle%Qle_bool_iff Hrest].
    apply andb_true_iff in Hep as [Hnow Hep].
    apply IH; [| done | done]. now apply on_epoch_step with t.
Qed.

(** C1, amended: in every state reached with clock readings between
    [2^30] and [2^31] and whose [total_sec] is below [2^31],
    [remaining_sec] is [total_sec - elapsed_sec] or one less; and after a
    loop iteration at such a reading it is [total_sec - elapsed_sec]
    exactly when the elapsed time of that iteration is a whole number of
    seconds or exceeds [total_sec]. *)
Theorem remaining_sec_within_one (t : Q) (sv : Server) :
  on_epoch t sv -> small_total (state sv) ->
  (remaining_sec (state sv) = total_sec (state sv) - elapsed_sec (state sv) \/
   remaining_sec (state sv) = total_sec (state sv) - elapsed_sec (state sv) - 1) /\
  (forall now, (t <= now)%Q -> epoch_reading now = true -> tick_enabled sv = true ->
     let st' := state (step now Tick sv) in
     remaining_sec st' = total_sec st' - elapsed_sec st' <->
     (elapsed_at now sv == inject_Z (elapsed_sec st') \/
      inject_Z (total_sec st') < elapsed_at now sv)%Q).
Proof.
  intros Hr%on_epoch_reachable _. pose proof (reachable_inv _ _ Hr) as Hinv. split.
  - apply Hinv.
  - intros now Hle _ Hen st'. subst st'. simpl. rewrite Hen.
    apply (timer_inv_later _ now) in Hinv; [| done].
    unfold tick_enabled in Hen. apply andb_true_iff in Hen as [_ Ht].
    destruct (inv_clock _ _ Hinv Ht) as (Hsw & Hoff & _).
    rewrite timer_tick_unfold. simpl.
    apply trunc_remaining_exact; [apply Hinv | now apply elapsed_at_nonneg].
Qed.

Lemma remaining_sec_within_one_witness :
  let sv := run epoch_half_second_run initial in
  on_epoch (3400000001 # 2) sv /\ small_total (state sv) /\
  elapsed_sec (state sv) = 0 /\ remaining_sec (state sv) = 179 /\
  (remaining_sec (state sv) = total_sec (state sv) - elapsed_sec (state sv) \/
   remaining_sec (state sv) = total_sec (state sv) - elapsed_sec (state sv) - 1).
Proof.
  pose (Hr := on_epoch_run 1700000000 initial epoch_half_second_run
                (on_epoch_initial 1700000000 eq_refl) eq_refl eq_refl).
  assert (Hsmall : small_total (state (run epoch_half_second_run initial)))
    by (vm_compute; split; reflexivity).
  split; [exact Hr |]. split; [exact Hsmall |].
  split; [reflexivity |]. split; [reflexivity |].
  exact (proj1 (remaining_sec_within_one _ _ Hr Hsmall)).
Defined.

(** ** C2: the over flag against the remaining seconds *)

(** C2, as stated, fails: half a second after the three minutes are over
    the state holds [over = True] with [remaining_sec = 0]. *)
Lemma over_not_iff_remaining_sec_negative :
  ~ (forall t sv, reachable t sv ->
       over (state sv) = true <-> remaining_sec (state sv) < 0).
Proof.
  intros H.
  specialize (H _ _ (reachable_run 0 initial overtime_run
                       (reachable_initial 0) eq_refl)).
  vm_compute in H. destruct H as [H _]. specialize (H eq_refl). discriminate.
Qed.

(** C2, amended: in every reachable state a negative [remaining_sec] comes
    with [over]; and a loop iteration sets [over] exactly when the
    remaining time of that iteration, before truncation, is negative, so
    that [over] then comes with [remaining_sec <= 0]. *)
Theorem over_tracks_exact_remaining (t : Q) (sv : Server) :
  reachable t sv ->
  (remaining_sec (state sv) < 0 -> over (state sv) = true) /\
  (forall now, (t <= now)%Q -> tick_enabled sv = true ->
     let st' := state (step now Tick sv) in
     (over st' = true <-> (remaining_at now sv < 0)%Q) /\
     (over st' = true -> remaining_sec st' <= 0)).
Proof.
  intros Hr. pose proof (reachable_inv _ _ Hr) as Hinv. split.
  - apply Hinv.
  - intros now Hle Hen st'. subst st'. simpl. rewrite Hen.
    rewrite timer_tick_unfold. simpl. split.
    + apply Qltb_true.
    + intros Hover%Qltb_true. now apply trunc_of_neg.
Qed.

Lemma over_tracks_exact_remaining_witness :
  let sv := run late_run initial in
  reachable (2365 # 2) sv /\
  remaining_sec (state sv) < 0 /\ over (state sv) = true.
Proof.
  pose (Hr := reachable_run 0 initial late_run (reachable_initial 0) eq_refl).
  split; [exact Hr |]. split; [reflexivity |].
  apply (proj1 (over_tracks_exact_remaining _ _ Hr)). reflexivity.
Defined.

(** ** C3: numeric fields that are absent or malformed *)

Lemma convertible_field (data : gmap string Py.value) (key : string) (dflt : Z) :
  convertible data = true -> In key numeric_keys ->
  exists z, field_is data key dflt z.
Proof.
  unfold convertible. rewrite forallb_forall. intros Hall Hin.
  specialize (Hall key Hin). unfold field_is.
  destruct (data !! key) as [v |]; [| eauto].
  destruct (Py.int v); [eauto | discriminate].
Qed.

(** C3, as stated, fails: [set_total] with [minutes = "abc"] raises
    [ValueError], and [manual_bell] with [count = None] raises [TypeError];
    no default is substituted and nothing is broadcast. *)
Lemma malformed_field_raises :
  cmd 1000 word_minutes initial = Py.Raise Py.ValueError /\
  cmd 1000 null_count initial = Py.Raise Py.TypeError /\
  ~ (forall now data sv, exists sv' out, cmd now data sv = Py.Ok (sv', out)).
Proof.
  split; [reflexivity |]. split; [reflexivity |].
  intros H. destruct (H 1000%Q word_minutes initial) as (sv' & out & Hok).
  vm_compute in Hok. discriminate.
Qed.

(** C3, amended: when every minutes/seconds/index/count field of the
    payload is absent or accepted by [int()], the handler completes
    normally, and an absent field takes its default: minutes=3 and
    seconds=0 for [set_total]; index=0, minutes=0 and seconds=0 for
    [set_bell]; count=1 for [manual_bell]. *)
Theorem absent_fields_take_defaults (now : Q) (data : gmap string Py.value)
    (sv : Server) :
  convertible data = true ->
  (exists sv' out, cmd now data sv = Py.Ok (sv', out)) /\
  (is_action data "set_total" = true -> ticking (state sv) = false ->
   exists m s,
     field_is data "minutes" 3 m /\ field_is data "seconds" 0 s /\
     cmd now data sv =
       then_broadcast (if 0 <? m * 60 + s then assign_total (m * 60 + s) sv else sv)) /\
  (is_action data "set_bell" = true ->
   exists i m s,
     field_is data "index" 0 i /\ field_is data "minutes" 0 m /\
     field_is data "seconds" 0 s /\
     cmd now data sv =
       then_broadcast
         (if (0 <=? i) && (i <? Z.of_nat (length (bells (state sv))))
          then assign_bell (Z.to_nat i) (m * 60 + s)
                 (Py.truthy (Py.get data "enabled" (Py.VBool true))) sv
          else sv)) /\
  (is_action data "manual_bell" = true ->
   exists c,
     field_is data "count" 1 c /\
     cmd now data sv =
       Py.Ok (sv, [ {| snapshot := state sv; fire_bells := Some [c] |} ])).
Proof.
  intros Hconv.
  assert (Htotal : is_action data "set_total" = true -> ticking (state sv) = false ->
           exists m s, field_is data "minutes" 3 m /\ field_is data "seconds" 0 s /\
             cmd now data sv = then_broadcast
               (if 0 <? m * 60 + s then assign_total (m * 60 + s) sv else sv)).
  { intros Hact Ht.
    destruct (convertible_field data "minutes" 3 Hconv) as [m Hm]; [simpl; tauto |].
    destruct (convertible_field data "seconds" 0 Hconv) as [s Hs]; [simpl; tauto |].
    exists m, s. repeat split; try done. now apply cmd_set_total. }
  assert (Hbell : is_action data "set_bell" = true ->
           exists i m s, field_is data "index" 0 i /\ field_is data "minutes" 0 m /\
             field_is data "seconds" 0 s /\
             cmd now data sv = then_broadcast
               (if (0 <=? i) && (i <? Z.of_nat (length (bells (state sv))))
                then assign_bell (Z.to_nat i) (m * 60 + s)
                       (Py.truthy (Py.get data "enabled" (Py.VBool true))) sv
                else sv)).
  { intros Hact.
    destruct (convertible_field data "index" 0 Hconv) as [i Hi]; [simpl; tauto |].
    destruct (convertible_field data "minutes" 0 Hconv) as [m Hm]; [simpl; tauto |].
    destruct (convertible_field data "seconds" 0 Hconv) as [s Hs]; [simpl; tauto |].
    exists i, m, s. repeat split; try done. now apply cmd_set_bell. }
  assert (Hmanual : is_action data "manual_bell" = true ->
           exists c, field_is data "count" 1 c /\
             cmd now data sv =
               Py.Ok (sv, [ {| snapshot := state sv; fire_bells := Some [c] |} ])).
  { intros Hact.
    destruct (convertible_field data "count" 1 Hconv) as [c Hc]; [simpl; tauto |].
    exists c. split; [done |]. now apply cmd_manual_bell. }
  split; [| tauto].
  destruct (is_action data "set_total") eqn:Etotal.
  { destruct (ticking (state sv)) eqn:Et.
    - rewrite cmd_set_total_running by done. unfold then_broadcast. eauto.
    - destruct Htotal as (m & s & _ & _ & ->); try done. unfold then_broadcast. eauto. }
  destruct (is_action data "set_bell") eqn:Ebell.
  { destruct Hbell as (i & m & s & _ & _ & _ & ->); try done.
    unfold then_broadcast. eauto. }
  destruct (is_action data "manual_bell") eqn:Emanual.
  { destruct Hmanual as (c & _ & ->); try done. eauto. }
  unfold cmd. rewrite Etotal, Ebell, Emanual. unfold then_broadcast.
  repeat match goal with |- context [if ?c then _ else _] => destruct c end; eauto.
Qed.

Lemma absent_fields_take_defaults_witness :
  convertible (action "set_total") = true /\
  cmd 1000 (action "set_total") initial = then_broadcast (assign_total 180 initial).
Proof.
  split; [reflexivity |].
  destruct (absent_fields_take_defaults 1000 (action "set_total") initial eq_refl)
    as (_ & Htotal & _).
  destruct (Htotal eq_refl eq_refl) as (m & s & Hm & Hs & ->).
  vm_compute in Hm, Hs. now subst m s.
Defined.

(** ** C4: [set_total] while idle or paused *)

(** C4, as stated, fails: with minutes=0 and seconds=0 on the idle server
    the handler keeps [total_sec = 180] instead of setting it to 0. *)
Lemma set_total_zero_keeps_total :
  ~ (forall now data sv m s sv' out,
       is_action data "set_total" = true ->
       running (state sv) = false \/ paused (state sv) = true ->
       data !! "minutes" = Some (Py.VInt m) -> data !! "seconds" = Some (Py.VInt s) ->
       0 <= m -> 0 <= s ->
       cmd now data sv = Py.Ok (sv', out) ->
       total_sec (state sv') = 60 * m + s /\
       elapsed_sec (state sv') = 0 /\
       remaining_sec (state sv') = total_sec (state sv') /\
       Forall (fun b => triggered b = false) (bells (state sv'))).
Proof.
  intros H.
  assert (Hcmd : cmd 1000 zero_total initial
                 = Py.Ok (initial, [broadcast_state initial])) by reflexivity.
  destruct (H 1000%Q zero_total initial 0 0 _ _ eq_refl (or_introl eq_refl)
              eq_refl eq_refl (Z.le_refl 0) (Z.le_refl 0) Hcmd) as [Htotal _].
  vm_compute in Htotal. discriminate.
Qed.

(** C4, amended: for every [set_total] issued while [running] is false or
    [paused] is true, with integer minutes [m >= 0] and seconds [s >= 0]
    such that [60*m + s > 0], the handler returns, and in the state it
    leaves [total_sec = 60*m + s], [elapsed_sec = 0],
    [remaining_sec = total_sec] and no bell is triggered. *)
Theorem set_total_positive (now : Q) (data : gmap string Py.value) (sv : Server)
    (m s : Z) :
  is_action data "set_total" = true ->
  running (state sv) = false \/ paused (state sv) = true ->
  data !! "minutes" = Some (Py.VInt m) -> data !! "seconds" = Some (Py.VInt s) ->
  0 <= m -> 0 <= s -> 0 < 60 * m + s ->
  exists sv',
    cmd now data sv = Py.Ok (sv', [broadcast_state sv']) /\
    total_sec (state sv') = 60 * m + s /\
    elapsed_sec (state sv') = 0 /\
    remaining_sec (state sv') = total_sec (state sv') /\
    Forall (fun b => triggered b = false) (bells (state sv')).
Proof.
  intros Hact Hidle%idle_or_paused Hm%(field_is_present _ _ 3)
    Hs%(field_is_present _ _ 0) _ _ Hpos.
  rewrite (cmd_set_total now data sv m s) by done.
  replace (0 <? m * 60 + s) with true by lia.
  eexists. split; [reflexivity |]. simpl. repeat split; try lia.
  now apply Forall_untriggered.
Qed.

Lemma set_total_positive_witness :
  exists sv',
    cmd 1000 five_minutes initial = Py.Ok (sv', [broadcast_state sv']) /\
    total_sec (state sv') = 60 * 5 + 0 /\
    elapsed_sec (state sv') = 0 /\
    remaining_sec (state sv') = total_sec (state sv') /\
    Forall (fun b => triggered b = false) (bells (state sv')).
Proof.
  apply (set_total_positive 1000 five_minutes initial 5 0);
    try reflexivity; try lia.
  left. reflexivity.
Defined.

(** ** C5: how long a bell stays triggered *)

Lemma bell_index_target (i n : nat) (data : gmap string Py.value) :
  bell_index data n = Some i -> bell_target i data = true.
Proof.
  unfold bell_index, bell_target.
  destruct (Py.int _) as [idx |]; [| discriminate].
  destruct ((0 <=? idx) && (idx <? Z.of_nat n)) eqn:Hin; [| discriminate].
  apply andb_true_iff in Hin as [Hlo%Z.leb_le _].
  intros [= <-]. apply Z.eqb_eq. lia.
Qed.

(** A flag that is set survives every event that does not re-arm the
    bell. *)
Lemma triggered_kept (now : Q) (ev : event) (sv : Server) (i : nat) :
  is_triggered i sv -> rearms i ev = false -> is_triggered i (step now ev sv).
Proof.
  intros (b & Hb & Htrig) Hre. unfold is_triggered.
  pose proof (step_effects now ev sv) as Heff.
  revert Heff Hre. generalize (step now ev sv). intros sv' Heff.
  destruct Heff as [data sv' Hcmd | Ht |]; intros Hre.
  - unfold rearms in Hre. simpl in Hre.
    destruct Hcmd as [| _ _ | _ _ | Hact | total Hact _ _ | idx at_ en Hact Hidx _];
      simpl; eauto.
    + rewrite Hact in Hre. discriminate.
    + rewrite Hact, orb_true_r in Hre. discriminate.
    + destruct (decide (idx = i)) as [-> | Hne].
      * rewrite Hact, (bell_index_target _ _ _ Hidx), orb_true_r in Hre.
        discriminate.
      * exists b. now rewrite list_lookup_alter_ne.
  - rewrite timer_tick_unfold. simpl. exists b.
    rewrite list_lookup_fmap, Hb. simpl. now rewrite rung_triggered.
  - eauto.
Qed.

Lemma no_rearm_cons (i : nat) (now : Q) (ev : event) (script : list (Q * event)) :
  no_rearm i ((now, ev) :: script) = true ->
  rearms i ev = false /\ no_rearm i script = true.
Proof.
  unfold no_rearm. simpl. rewrite andb_true_iff, negb_true_iff. tauto.
Qed.

Lemma triggered_kept_run (script : list (Q * event)) (sv : Server) (i : nat) :
  is_triggered i sv -> no_rearm i script = true -> is_triggered i (run script sv).
Proof.
  revert sv. induction script as [| [now ev] rest IH]; intros sv Htrig Hno; [done |].
  apply no_rearm_cons in Hno as [Hev Hrest]. simpl.
  apply IH; [| done]. now apply triggered_kept.
Qed.

(** C5, as stated, fails: after bell 0 has fired at one minute, a
    [set_bell] for bell 0 clears its flag, though the command is neither
    [reset] nor [set_total]. *)
Lemma set_bell_clears_triggered :
  ~ (forall t sv i now data sv' out,
       reachable t sv -> is_triggered i sv ->
       is_action data "reset" = false -> is_action data "set_total" = false ->
       cmd now data sv = Py.Ok (sv', out) ->
       is_triggered i sv').
Proof.
  intros H.
  pose (Hr := reachable_run 0 initial minute_run (reachable_initial 0) eq_refl).
  assert (Htrig : is_triggered 0 (run minute_run initial)).
  { eexists. split; reflexivity. }
  pose (sv' := assign_bell 0 60 true (run minute_run initial)).
  assert (Hcmd : cmd 1061 bell0_at_minute (run minute_run initial)
                 = Py.Ok (sv', [broadcast_state sv'])) by reflexivity.
  destruct (H _ _ 0%nat 1061%Q bell0_at_minute _ _ Hr Htrig eq_refl eq_refl Hcmd)
    as (b & Hb & Hset).
  vm_compute in Hb. injection Hb as <-. discriminate.
Qed.

(** C5, amended: in every reachable state a bell whose flag is set has
    [at_sec <= elapsed_sec]; and a flag that is set stays set through
    every run of commands and loop iterations that contains no [reset], no
    [set_total] and no [set_bell] for that bell. *)
Theorem triggered_until_rearmed (t : Q) (sv : Server) :
  reachable t sv ->
  Forall (fun b => triggered b = true -> at_sec b <= elapsed_sec (state sv))
         (bells (state sv)) /\
  (forall i script,
     is_triggered i sv -> no_rearm i script = true ->
     is_triggered i (run script sv)).
Proof.
  intros Hr. split.
  - apply (reachable_inv _ _ Hr).
  - intros i script. apply triggered_kept_run.
Qed.

Lemma triggered_until_rearmed_witness :
  let sv := run minute_run initial in
  reachable 1060 sv /\ is_triggered 0 sv /\ no_rearm 0 busy_script = true /\
  is_triggered 0 (run busy_script sv).
Proof.
  pose (Hr := reachable_run 0 initial minute_run (reachable_initial 0) eq_refl).
  assert (Htrig : is_triggered 0 (run minute_run initial)).
  { eexists. split; reflexivity. }
  split; [exact Hr |]. split; [exact Htrig |]. split; [reflexivity |].
  exact (proj2 (triggered_until_rearmed _ _ Hr) 0%nat busy_script Htrig eq_refl).
Defined.

(** ** C6: [set_total] while the timer runs *)

(** C6: a [set_total] issued while [running] is true and [paused] is false
    returns without raising, whatever its other fields, leaves the whole
    server as it was, and broadcasts the state once. *)
Theorem set_total_while_running_ignored (now : Q) (data : gmap string Py.value)
    (sv : Server) :
  is_action data "set_total" = true ->
  running (state sv) = true -> paused (state sv) = false ->
  cmd now data sv = Py.Ok (sv, [ {| snapshot := state sv; fire_bells := None |} ]).
Proof.
  intros Hact Hrun Hp. apply cmd_set_total_running; [done |].
  unfold ticking. now rewrite Hrun, Hp.
Qed.

Lemma set_total_while_running_ignored_witness :
  let sv := start_timer 1000 initial in
  cmd 1010 five_minutes sv =
    Py.Ok (sv, [ {| snapshot := state sv; fire_bells := None |} ]) /\
  cmd 1010 word_minutes sv =
    Py.Ok (sv, [ {| snapshot := state sv; fire_bells := None |} ]) /\
  total_sec (state sv) = 180.
Proof.
  split; [| split; [| reflexivity]].
  - apply (set_total_while_running_ignored 1010 five_minutes); reflexivity.
  - apply (set_total_while_running_ignored 1010 word_minutes); reflexivity.
Defined.

(** ** C7: the bells of one loop iteration *)

Lemma fires_triggers (i : nat) (now : Q) (ev : event) (sv : Server) :
  fires i now ev sv = true -> is_triggered i (step now ev sv).
Proof.
  destruct ev as [data |]; simpl; [discriminate |].
  intros [Hen Hring]%andb_true_iff. rewrite Hen, timer_tick_unfold. simpl.
  destruct (bells (state sv) !! i) as [b |] eqn:Hb; [| discriminate].
  exists (set_triggered true b). split; [| done]. simpl.
  rewrite list_lookup_fmap, Hb. simpl. unfold rung. now rewrite Hring.
Qed.

Lemma triggered_not_fires (i : nat) (now : Q) (ev : event) (sv : Server) :
  is_triggered i sv -> fires i now ev sv = false.
Proof.
  intros (b & Hb & Htrig). destruct ev as [data |]; simpl; [done |].
  rewrite Hb. unfold rings. rewrite Htrig, andb_false_r. simpl.
  apply andb_false_r.
Qed.

(** Without re-arming, a bell whose flag is set does not fire. *)
Lemma fire_count_triggered (i : nat) (script : list (Q * event)) (sv : Server) :
  is_triggered i sv -> no_rearm i script = true -> fire_count i script sv = 0%nat.
Proof.
  revert sv. induction script as [| [now ev] rest IH]; intros sv Htrig Hno; [done |].
  apply no_rearm_cons in Hno as [Hev Hrest]. simpl.
  rewrite triggered_not_fires by done.
  rewrite IH; [done | now apply triggered_kept | done].
Qed.

(** Without re-arming, a bell fires at most once. *)
Lemma fire_count_once (i : nat) (script : list (Q * event)) (sv : Server) :
  no_rearm i script = true -> (fire_count i script sv <= 1)%nat.
Proof.
  revert sv. induction script as [| [now ev] rest IH]; intros sv Hno; simpl; [lia |].
  apply no_rearm_cons in Hno as [Hev Hrest].
  destruct (fires i now ev sv) eqn:Hf.
  - rewrite fire_count_triggered; [lia | now apply fires_triggers | done].
  - specialize (IH (step now ev sv) Hrest). lia.
Qed.

(** C7, as stated, fails in its last part: within one run-cycle, with no
    [reset] and no [set_total], bell 0 fires twice when a [set_bell] for
    it comes between two loop iterations. *)
Lemma bell_fires_twice_in_cycle :
  ~ (forall t sv i script,
       reachable t sv -> in_order t script = true -> within_cycle script = true ->
       (fire_count i script sv <= 1)%nat).
Proof.
  intros H.
  pose (Hr := reachable_run 0 initial [ (1000%Q, Command (action "start")) ]
                (reachable_initial 0) eq_refl).
  specialize (H _ _ 0%nat rearm_script Hr eq_refl eq_refl).
  vm_compute in H. lia.
Qed.

(** C7, amended: a loop iteration with truncated elapsed time [e] marks
    every bell that is enabled, not yet triggered and has [at_sec <= e],
    leaves the others as they are, and broadcasts the counts of the marked
    bells in list order as [fire_bells]; two such bells at the head of the
    list give [fire_bells = [bell0.count, bell1.count, ...]]; and along
    any run without [reset], [set_total] and [set_bell] for that bell, a
    bell fires at most once. *)
Theorem tick_fires_due_bells (now : Q) (sv : Server) :
  let e := Py.trunc (elapsed_at now sv) in
  let sv' := fst (timer_tick now sv) in
  let sent := snd (timer_tick now sv) in
  elapsed_sec (state sv') = e /\
  snapshot sent = state sv' /\
  bells (state sv') =
    (fun b => if rings e b then set_triggered true b else b) <$> bells (state sv) /\
  fire_bells sent = batch (count <$> List.filter (rings e) (bells (state sv))) /\
  (forall b, rings e b = true <->
             enabled b = true /\ triggered b = false /\ at_sec b <= e) /\
  (forall b0 b1 rest,
     bells (state sv) = b0 :: b1 :: rest ->
     enabled b0 = true -> triggered b0 = false ->
     enabled b1 = true -> triggered b1 = false ->
     at_sec b0 = at_sec b1 -> at_sec b0 <= e ->
     fire_bells sent =
       Some (count b0 :: count b1 :: (count <$> List.filter (rings e) rest))) /\
  (forall i script,
     no_rearm i script = true -> (fire_count i script sv <= 1)%nat).
Proof.
  intros e sv' sent. subst sv' sent. rewrite timer_tick_unfold. simpl. fold e.
  do 4 (split; [done |]). split; [| split].
  - intros b. apply rings_spec.
  - intros b0 b1 rest -> En0 Tr0 En1 Tr1 Hsame Hdue. simpl.
    assert (H0 : rings e b0 = true) by now apply rings_spec.
    assert (H1 : rings e b1 = true) by (apply rings_spec; repeat split; [done.. | lia]).
    now rewrite H0, H1.
  - intros i script. apply fire_count_once.
Qed.

Lemma tick_fires_due_bells_witness :
  fire_bells (snd (timer_tick 1060 twin_bells)) = Some [1; 2] /\
  no_rearm 0 busy_script = true /\
  (fire_count 0 busy_script twin_bells <= 1)%nat.
Proof.
  destruct (tick_fires_due_bells 1060 twin_bells)
    as (_ & _ & _ & _ & _ & Htwin & Honce).
  split; [| split; [reflexivity | exact (Honce 0%nat busy_script eq_refl)]].
  exact (Htwin _ _ _ eq_refl eq_refl eq_refl eq_refl eq_refl eq_refl
           ltac:(vm_compute; discriminate)).
Defined.

(** ** C8: resuming after a pause *)

Lemma timer_tick_anchors (now : Q) (sv : Server) :
  let sv' := fst (timer_tick now sv) in
  start_wall sv' = start_wall sv /\ elapsed_at_pause sv' = elapsed_at_pause sv /\
  ticking (state sv') = ticking (state sv).
Proof. rewrite timer_tick_unfold. simpl. done. Qed.




(** ** C9: [manual_bell] *)



(** ** C10: [set_total] with a total that is not positive *)

(** C10: a [set_total] issued while [running] is false or [paused] is true
    whose minutes and seconds compute to a total that is not positive
    leaves the whole server as it was, and the state is broadcast. *)
Theorem set_total_nonpositive_ignored (now : Q) (data : gmap string Py.value)
    (sv : Server) (m s : Z) :
  is_action data "set_total" = true ->
  running (state sv) = false \/ paused (state sv) = true ->
  field_is data "minutes" 3 m -> field_is data "seconds" 0 s ->
  m * 60 + s <= 0 ->
  cmd now data sv = Py.Ok (sv, [ {| snapshot := state sv; fire_bells := None |} ]).
Proof.
  intros Hact Hidle%idle_or_paused Hm Hs Hle.
  rewrite (cmd_set_total now data sv m s) by done.
  now replace (0 <? m * 60 + s) with false by lia.
Qed.

Lemma set_total_nonpositive_ignored_witness :
  cmd 1000 zero_total initial =
    Py.Ok (initial, [ {| snapshot := state initial; fire_bells := None |} ]).
Proof.
  apply (set_total_nonpositive_ignored 1000 zero_total initial 0 0);
    try reflexivity; try lia.
  left. reflexivity.
Defined.

(** * Part III: further properties of the handler and the loop *)

(** ** Every call of [cmd] that returns *)

(** X1: a call of [cmd] that returns has emitted exactly one event, whose
    snapshot is the state the call leaves; the event carries [fire_bells]
    only for [manual_bell], which changes nothing. *)
Theorem cmd_emits_post_state (now : Q) (data : gmap string Py.value)
    (sv sv' : Server) (out : list Emission) :
  cmd now data sv = Py.Ok (sv', out) ->
  exists sent,
    out = [sent] /\ snapshot sent = state sv' /\
    (fire_bells sent <> None -> is_action data "manual_bell" = true /\ sv' = sv).
Proof.
  unfold cmd, then_broadcast, broadcast_state. intros H.
  repeat match type of H with
         | (if ?c then _ else _) = _ => destruct c eqn:?
         | Py.bind _ _ = Py.Ok _ => apply bind_Ok in H as (? & _ & H)
         end;
    injection H as <- <-; eexists; (split; [reflexivity |]); simpl;
    (split; [reflexivity |]); try done.
Qed.

Lemma cmd_emits_post_state_witness :
  exists sent,
    [broadcast_state (start_timer 1000 initial)] = [sent] /\
    snapshot sent = state (start_timer 1000 initial) /\
    (fire_bells sent <> None ->
     is_action (action "start") "manual_bell" = true /\
     start_timer 1000 initial = initial).
Proof.
  apply (cmd_emits_post_state 1000 (action "start") initial). reflexivity.
Defined.

(** ** [start] *)



(** ** While the timer does not run *)

Lemma keeps_time_step (now : Q) (ev : event) (sv : Server) :
  ticking (state sv) = false -> keeps_time ev = true ->
  timing (state (step now ev sv)) = timing (state sv) /\
  start_wall (step now ev sv) = start_wall sv /\
  elapsed_at_pause (step now ev sv) = elapsed_at_pause sv.
Proof.
  intros Ht Hev. pose proof (step_effects now ev sv) as Heff.
  revert Heff Hev. generalize (step now ev sv). intros sv' Heff.
  destruct Heff as [data sv' Hcmd | Ht' |]; intros Hev; [| congruence | done].
  simpl in Hev. apply negb_true_iff in Hev.
  destruct Hcmd as [| Hact _ | _ Ht' | Hact | total Hact _ _ | idx at_ en _ _ _];
    try done; try congruence; rewrite Hact in Hev; simpl in Hev;
    try discriminate; rewrite ?orb_true_r in Hev; discriminate.
Qed.

Lemma timing_ticking (st st' : State) :
  timing st = timing st' -> ticking st = ticking st'.
Proof. unfold timing, ticking. intros [= Hrun Hp _ _ _ _]. now rewrite Hrun, Hp. Qed.

(** X3: while the timer is idle or paused the time stands still: along any
    events other than [start], [reset] and [set_total] (loop wake-ups,
    [pause], [set_bell], [manual_bell], unknown actions) the flags, the
    total, the elapsed and remaining seconds, [over] and both anchors stay
    as they are. *)
Theorem time_stands_still (script : list (Q * event)) (sv : Server) :
  ticking (state sv) = false -> standing script = true ->
  timing (state (run script sv)) = timing (state sv) /\
  start_wall (run script sv) = start_wall sv /\
  elapsed_at_pause (run script sv) = elapsed_at_pause sv.
Proof.
  revert sv. induction script as [| [now ev] rest IH]; intros sv Ht Hst; [done |].
  simpl in Hst. apply andb_true_iff in Hst as [Hev Hrest]. simpl.
  destruct (keeps_time_step now ev sv Ht Hev) as (Htim & Hsw & Hoff).
  destruct (IH (step now ev sv)) as (Htim' & Hsw' & Hoff'); [| done |].
  - now rewrite (timing_ticking _ _ Htim).
  - split; [congruence | split; congruence].
Qed.

Lemma time_stands_still_witness :
  ticking (state paused_at_30) = false /\ standing idle_script = true /\
  timing (state (run idle_script paused_at_30))
  = (true, true, 180, 149, 30, false).
Proof.
  split; [reflexivity |]. split; [reflexivity |].
  rewrite (proj1 (time_stands_still idle_script paused_at_30 eq_refl eq_refl)).
  reflexivity.
Defined.

(** X4: a second [pause] changes nothing: whatever the state before the
    first one, the server that a [pause] leaves is left as it is by the
    next [pause], which only broadcasts the state. *)
Theorem pause_twice_is_pause_once (t1 t2 : Q) (data data' : gmap string Py.value)
    (sv : Server) :
  is_action data "pause" = true -> is_action data' "pause" = true ->
  let sv1 := step t1 (Command data) sv in
  ticking (state sv1) = false /\
  cmd t2 data' sv1 = Py.Ok (sv1, [broadcast_state sv1]).
Proof.
  intros Hact Hact' sv1.
  assert (Ht1 : ticking (state sv1) = false).
  { subst sv1. simpl. choose_action Hact. unfold ticking.
    destruct (running (state sv)) eqn:Hrun, (paused (state sv)) eqn:Hp; simpl;
      rewrite ?Hrun, ?Hp; done. }
  split; [exact Ht1 |].
  choose_action Hact'. unfold ticking in Ht1. now rewrite Ht1.
Qed.

Lemma pause_twice_is_pause_once_witness :
  let sv1 := step 1030 (Command (action "pause")) (start_timer 1000 initial) in
  paused (state sv1) = true /\
  cmd 1040 (action "pause") sv1 = Py.Ok (sv1, [broadcast_state sv1]).
Proof.
  split; [reflexivity |].
  exact (proj2 (pause_twice_is_pause_once 1030 1040 (action "pause") (action "pause")
                  (start_timer 1000 initial) eq_refl eq_refl)).
Defined.

(** ** [reset] *)

Lemma untrigger_twice (bs : list Bell) :
  set_triggered false <$> (set_triggered false <$> bs) = set_triggered false <$> bs.
Proof. rewrite <- list_fmap_compose. now apply list_fmap_ext. Qed.

(** X5: a [reset] returns from every state, whatever else the payload
    holds: it leaves the timer idle with the loop cancelled, no second
    elapsed, the whole total remaining, [over] and every bell flag
    cleared, and it keeps the total and the settings of every bell. A
    second [reset] changes nothing more. *)
Theorem reset_restores (now now' : Q) (data data' : gmap string Py.value)
    (sv : Server) :
  is_action data "reset" = true -> is_action data' "reset" = true ->
  exists sv',
    cmd now data sv = Py.Ok (sv', [broadcast_state sv']) /\
    timing (state sv') = (false, false, total_sec (state sv), total_sec (state sv), 0, false) /\
    timer_task sv' = false /\
    Forall (fun b => triggered b = false) (bells (state sv')) /\
    settings <$> bells (state sv') = settings <$> bells (state sv) /\
    cmd now' data' sv' = Py.Ok (sv', [broadcast_state sv']).
Proof.
  intros Hact Hact'. exists (reset_timer sv).
  split; [choose_action Hact; reflexivity |].
  split; [reflexivity |]. split; [reflexivity |]. split; [| split].
  - simpl. now apply Forall_untriggered.
  - simpl. rewrite <- list_fmap_compose. now apply list_fmap_ext.
  - choose_action Hact'. unfold then_broadcast, reset_timer. simpl.
    now rewrite untrigger_twice.
Qed.

Lemma reset_restores_witness :
  exists sv',
    cmd 1200 (action "reset") (run overtime_run initial)
    = Py.Ok (sv', [broadcast_state sv']) /\
    timing (state sv') = (false, false, 180, 180, 0, false).
Proof.
  destruct (reset_restores 1200 1201 (action "reset") (action "reset")
              (run overtime_run initial) eq_refl eq_refl)
    as (sv' & Hcmd & Htim & _).
  exists sv'. split; [exact Hcmd | exact Htim].
Defined.

(** ** [set_bell] *)

(** X6: a [set_bell] whose index is in range writes the bell at that
    index (the time from minutes and seconds, [enabled] from the truth
    value of the field, the flag cleared) and keeps its chime count; every
    other bell, the number of bells, the time fields and the globals stay
    as they are. *)
Theorem set_bell_writes_one_bell (now : Q) (data : gmap string Py.value)
    (sv : Server) (i m s : Z) :
  is_action data "set_bell" = true ->
  field_is data "index" 0 i -> field_is data "minutes" 0 m ->
  field_is data "seconds" 0 s ->
  0 <= i < Z.of_nat (length (bells (state sv))) ->
  exists sv' b,
    cmd now data sv = Py.Ok (sv', [broadcast_state sv']) /\
    bells (state sv) !! Z.to_nat i = Some b /\
    bells (state sv') !! Z.to_nat i =
      Some {| enabled := Py.truthy (Py.get data "enabled" (Py.VBool true));
              at_sec := m * 60 + s; count := count b; triggered := false |} /\
    (forall j, j <> Z.to_nat i -> bells (state sv') !! j = bells (state sv) !! j) /\
    length (bells (state sv')) = length (bells (state sv)) /\
    timing (state sv') = timing (state sv) /\
    (timer_task sv', start_wall sv', elapsed_at_pause sv')
    = (timer_task sv, start_wall sv, elapsed_at_pause sv).
Proof.
  intros Hact Hi Hm Hs Hin.
  destruct (lookup_lt_is_Some_2 (bells (state sv)) (Z.to_nat i)) as [b Hb]; [lia |].
  rewrite (cmd_set_bell now data sv i m s) by done.
  replace ((0 <=? i) && (i <? Z.of_nat (length (bells (state sv))))) with true by lia.
  eexists _, b. split; [reflexivity |]. split; [done |]. simpl.
  split; [now rewrite list_lookup_alter_eq, Hb |].
  split; [intros j Hj; now rewrite list_lookup_alter_ne |].
  split; [apply length_alter | done].
Qed.

Lemma set_bell_writes_one_bell_witness :
  exists sv' b,
    cmd 1000 bell0_off initial = Py.Ok (sv', [broadcast_state sv']) /\
    bells (state initial) !! Z.to_nat 0 = Some b /\
    bells (state sv') !! Z.to_nat 0 =
      Some {| enabled := false; at_sec := 0 * 60 + 10; count := count b;
              triggered := false |}.
Proof.
  destruct (set_bell_writes_one_bell 1000 bell0_off initial 0 0 10)
    as (sv' & b & Hcmd & Hb & Hb' & _); try reflexivity; [simpl; lia |].
  exists sv', b. split; [exact Hcmd |]. split; [exact Hb | exact Hb'].
Defined.

(** X7: a [set_bell] whose index is negative or not below the number of
    bells changes nothing and broadcasts the state; its minutes and
    seconds are not converted, so they cannot make it raise. *)
Theorem set_bell_out_of_range_ignored (now : Q) (data : gmap string Py.value)
    (sv : Server) (i : Z) :
  is_action data "set_bell" = true -> field_is data "index" 0 i ->
  i < 0 \/ Z.of_nat (length (bells (state sv))) <= i ->
  cmd now data sv = Py.Ok (sv, [broadcast_state sv]).
Proof.
  intros Hact Hi%field_is_int Hout. choose_action Hact. rewrite Hi. simpl.
  now replace ((0 <=? i) && (i <? Z.of_nat (length (bells (state sv)))))
    with false by lia.
Qed.

Lemma set_bell_out_of_range_ignored_witness :
  cmd 1000 bell7_word initial = Py.Ok (initial, [broadcast_state initial]).
Proof.
  apply (set_bell_out_of_range_ignored 1000 bell7_word initial 7);
    [reflexivity | reflexivity | right; simpl; lia].
Defined.

(** ** Unknown actions *)

(** X8: a payload whose action is none of the six known ones (the key is
    absent, or its value is another string or no string) changes nothing
    and broadcasts the state. *)
Theorem unknown_action_only_broadcasts (now : Q) (data : gmap string Py.value)
    (sv : Server) :
  unknown_action data = true ->
  cmd now data sv = Py.Ok (sv, [broadcast_state sv]).
Proof.
  unfold unknown_action, known_actions. simpl.
  rewrite !andb_true_iff, !negb_true_iff.
  intros (H1 & H2 & H3 & H4 & H5 & H6 & _).
  unfold cmd. now rewrite H1, H2, H3, H4, H5, H6.
Qed.

Lemma unknown_action_only_broadcasts_witness :
  cmd 1000 no_action initial = Py.Ok (initial, [broadcast_state initial]) /\
  cmd 1000 (action "stop") initial = Py.Ok (initial, [broadcast_state initial]) /\
  cmd 1000 {[ "action" := Py.VInt 1 ]} initial
  = Py.Ok (initial, [broadcast_state initial]).
Proof.
  split; [| split].
  - apply (unknown_action_only_broadcasts 1000 no_action). reflexivity.
  - apply (unknown_action_only_broadcasts 1000 (action "stop")). reflexivity.
  - apply (unknown_action_only_broadcasts 1000 {[ "action" := Py.VInt 1 ]}).
    reflexivity.
Defined.

(** ** What holds in every reachable state *)

(** X9: in every reachable state the total is positive and the elapsed
    seconds are not negative; and when the total is below [2^31] the
    remaining seconds do not exceed it. *)
Theorem reachable_bounds (t : Q) (sv : Server) :
  reachable t sv ->
  0 < total_sec (state sv) /\ 0 <= elapsed_sec (state sv) /\
  (small_total (state sv) -> remaining_sec (state sv) <= total_sec (state sv)).
Proof.
  intros [Htot Hel Hrem _ _ _]%reachable_inv. lia.
Qed.

Lemma reachable_bounds_witness :
  reachable (2365 # 2) (run late_run initial) /\
  small_total (state (run late_run initial)) /\
  0 < total_sec (state (run late_run initial)) /\
  0 <= elapsed_sec (state (run late_run initial)) /\
  remaining_sec (state (run late_run initial))
  <= total_sec (state (run late_run initial)).
Proof.
  pose (Hr := reachable_run 0 initial late_run (reachable_initial 0) eq_refl).
  assert (Hsmall : small_total (state (run late_run initial)))
    by (vm_compute; split; reflexivity).
  destruct (reachable_bounds _ _ Hr) as (Htot & Hel & Hrem).
  split; [exact Hr |]. split; [exact Hsmall |].
  split; [exact Htot |]. split; [exact Hel | exact (Hrem Hsmall)].
Defined.

Lemma flags_step (now : Q) (ev : event) (sv : Server) :
  timer_task sv = ticking (state sv) ->
  (paused (state sv) = true -> running (state sv) = true) ->
  timer_task (step now ev sv) = ticking (state (step now ev sv)) /\
  (paused (state (step now ev sv)) = true -> running (state (step now ev sv)) = true).
Proof.
  intros Htask Hp. pose proof (step_effects now ev sv) as Heff.
  revert Heff. generalize (step now ev sv). intros sv' Heff.
  destruct Heff as [data sv' Hcmd | Ht |].
  - destruct Hcmd as [| _ _ | _ Ht | _ | total _ _ _ | idx at_ en _ _ _];
      simpl; try done.
    unfold ticking in *. simpl.
    apply andb_true_iff in Ht as [-> _]. done.
  - rewrite timer_tick_unfold. simpl. done.
  - done.
Qed.

Lemma reachable_flags (t : Q) (sv : Server) :
  reachable t sv ->
  timer_task sv = ticking (state sv) /\
  (paused (state sv) = true -> running (state sv) = true).
Proof.
  induction 1 as [t | t sv now ev _ [IH1 IH2] _].
  - split; [reflexivity | discriminate].
  - now apply flags_step.
Qed.

(** X10: in every reachable state [paused] is set only while [running]
    is; and when the total is below [2^31], so that no iteration of the
    loop can raise, the loop task is alive exactly when the timer runs and
    is not paused. *)
Theorem reachable_task_follows_flags (t : Q) (sv : Server) :
  reachable t sv ->
  (paused (state sv) = true -> running (state sv) = true) /\
  (small_total (state sv) -> timer_task sv = ticking (state sv)).
Proof.
  intros [Htask Hp]%reachable_flags. split; [exact Hp | intros _; exact Htask].
Qed.

Lemma reachable_task_follows_flags_witness :
  reachable (10302 # 10) paused_at_30 /\ small_total (state paused_at_30) /\
  timer_task paused_at_30 = false /\ running (state paused_at_30) = true.
Proof.
  pose (Hr := reachable_run 0 initial
                [ (1000%Q, Command (action "start")); ((10301 # 10)%Q, Tick);
                  ((10302 # 10)%Q, Command (action "pause")) ]
                (reachable_initial 0) eq_refl
              : reachable (10302 # 10) paused_at_30).
  assert (Hsmall : small_total (state paused_at_30))
    by (vm_compute; split; reflexivity).
  split; [exact Hr |]. split; [exact Hsmall |].
  destruct (reachable_task_follows_flags _ _ Hr) as [Hp Htask].
  split; [rewrite (Htask Hsmall); reflexivity | apply Hp; reflexivity].
Defined.

Lemma counts_step (now : Q) (ev : event) (sv : Server) :
  count <$> bells (state (step now ev sv)) = count <$> bells (state sv).
Proof.
  pose proof (step_effects now ev sv) as Heff.
  revert Heff. generalize (step now ev sv). intros sv' Heff.
  destruct Heff as [data sv' Hcmd | Ht |].
  - destruct Hcmd as [| _ _ | _ _ | _ | total _ _ _ | idx at_ en _ _ _];
      simpl; try done.
    + rewrite <- list_fmap_compose. now apply list_fmap_ext.
    + rewrite <- list_fmap_compose. now apply list_fmap_ext.
    + apply list_eq. intros j. rewrite !list_lookup_fmap, list_lookup_alter.
      case_decide as Hj; [subst j | done].
      now destruct (bells (state sv) !! idx).
  - rewrite timer_tick_unfold. simpl.
    rewrite <- list_fmap_compose. apply list_fmap_ext.
    intros j b _. simpl. unfold rung. now destruct (rings _ b).
  - done.
Qed.

(** X11: no command and no loop iteration adds, removes or reorders a
    bell or changes a chime count: in every reachable state there are
    three bells, with one, two and three chimes. *)
Theorem reachable_chime_counts (t : Q) (sv : Server) :
  reachable t sv -> count <$> bells (state sv) = [1; 2; 3].
Proof.
  induction 1 as [t | t sv now ev _ IH _]; [reflexivity |].
  now rewrite counts_step.
Qed.

Lemma reachable_chime_counts_witness :
  reachable 1062 (run rearm_script (start_timer 1000 initial)) /\
  count <$> bells (state (run rearm_script (start_timer 1000 initial))) = [1; 2; 3].
Proof.
  pose (Hr := reachable_run 0 initial
                ((1000%Q, Command (action "start")) :: rearm_script)
                (reachable_initial 0) eq_refl).
  split; [exact Hr | exact (reachable_chime_counts _ _ Hr)].
Defined.

(** X12: in a run whose clock readings never go back, a loop iteration
    never lowers [elapsed_sec]. *)
Theorem elapsed_sec_never_goes_back (t now : Q) (sv : Server) :
  reachable t sv -> (t <= now)%Q ->
  elapsed_sec (state sv) <= elapsed_sec (state (step now Tick sv)).
Proof.
  intros Hr Hle. pose proof (reachable_inv _ _ Hr) as Hinv.
  apply (timer_inv_later _ now) in Hinv; [| done].
  simpl. unfold tick_enabled.
  destruct (timer_task sv); simpl; [| lia].
  destruct (ticking (state sv)) eqn:Ht; [| lia].
  destruct (inv_clock _ _ Hinv Ht) as (_ & _ & Hel).
  rewrite timer_tick_unfold. simpl. exact Hel.
Qed.

Lemma elapsed_sec_never_goes_back_witness :
  reachable 1060 (run minute_run initial) /\
  elapsed_sec (state (run minute_run initial))
  <= elapsed_sec (state (step (21201 # 20) Tick (run minute_run initial))).
Proof.
  pose (Hr := reachable_run 0 initial minute_run (reachable_initial 0) eq_refl).
  split; [exact Hr |].
  apply (elapsed_sec_never_goes_back _ _ _ Hr). vm_compute. discriminate.
Defined.

(** ** What a loop iteration does and does not do *)

Lemma rung_rung (e1 e2 : Z) (b : Bell) :
  e1 <= e2 -> rung e2 (rung e1 b) = rung e2 b.
Proof.
  intros Hle. unfold rung at 2. destruct (rings e1 b) eqn:H1; [| done].
  apply rings_spec in H1 as (Hen & Htr & Hat).
  rewrite (rung_triggered e2 (set_triggered true b)) by done.
  unfold rung. replace (rings e2 b) with true; [done |].
  symmetry. apply rings_spec. repeat split; [done.. | lia].
Qed.

Lemma rings_rung (e1 e2 : Z) (b : Bell) :
  e1 <= e2 -> rings e2 (rung e1 b) = rings e2 b && negb (rings e1 b).
Proof.
  intros Hle. unfold rung. destruct (rings e1 b) eqn:H1.
  - rewrite andb_false_r. unfold rings. simpl. now rewrite andb_false_r.
  - now rewrite andb_true_r.
Qed.

Lemma fired_split (e1 e2 : Z) (bs : list Bell) :
  e1 <= e2 ->
  count <$> List.filter (rings e2) bs ≡ₚ
    (count <$> List.filter (rings e1) bs) ++
    (count <$> List.filter (rings e2) (rung e1 <$> bs)).
Proof.
  intros Hle. induction bs as [| b bs IH]; [done |]. simpl.
  rewrite (rings_rung e1 e2 b Hle).
  destruct (rings e1 b) eqn:H1; simpl.
  - replace (rings e2 b) with true.
    2: { symmetry. apply rings_spec. apply rings_spec in H1. intuition lia. }
    simpl. now rewrite IH.
  - rewrite andb_true_r. destruct (rings e2 b) eqn:H2; simpl; [| done].
    unfold rung. rewrite H1. rewrite IH. apply Permutation_middle.
Qed.

(** X13: a loop iteration that comes after an earlier one leaves the
    server exactly as it would alone, and the chimes of the two broadcasts
    together are those that the single broadcast would carry: a late or
    extra iteration neither loses nor doubles a bell. *)
Theorem tick_absorbs_earlier_tick (now1 now2 : Q) (sv : Server) :
  (start_wall sv <= now1)%Q -> (now1 <= now2)%Q -> (0 <= elapsed_at_pause sv)%Q ->
  let sv1 := fst (timer_tick now1 sv) in
  fst (timer_tick now2 sv1) = fst (timer_tick now2 sv) /\
  chimes (snd (timer_tick now2 sv)) ≡ₚ
    chimes (snd (timer_tick now1 sv)) ++ chimes (snd (timer_tick now2 sv1)).
Proof.
  intros Hsw Hle Hoff sv1. subst sv1.
  assert (He : Py.trunc (elapsed_at now1 sv) <= Py.trunc (elapsed_at now2 sv)).
  { apply trunc_mono; [now apply elapsed_at_nonneg | unfold elapsed_at; lra]. }
  rewrite (timer_tick_unfold now1 sv). simpl.
  rewrite !timer_tick_unfold. simpl. unfold elapsed_at, remaining_at. simpl.
  fold (elapsed_at now1 sv). fold (elapsed_at now2 sv).
  fold (remaining_at now2 sv). split.
  - f_equal. f_equal. rewrite <- list_fmap_compose. apply list_fmap_ext.
    intros j b _. simpl. now apply rung_rung.
  - unfold chimes. simpl.
    pose proof (fired_split _ _ (bells (state sv)) He) as Hperm.
    set (f2 := count <$> List.filter (rings (Py.trunc (elapsed_at now2 sv)))
                         (bells (state sv))) in *.
    set (f1 := count <$> List.filter (rings (Py.trunc (elapsed_at now1 sv)))
                         (bells (state sv))) in *.
    set (f12 := count <$> List.filter (rings (Py.trunc (elapsed_at now2 sv)))
                  (rung (Py.trunc (elapsed_at now1 sv)) <$> bells (state sv))) in *.
    clearbody f1 f2 f12. now destruct f1, f2, f12.
Qed.

Lemma tick_absorbs_earlier_tick_witness :
  let sv := start_timer 1000 initial in
  let sv1 := fst (timer_tick 1090 sv) in
  fst (timer_tick 1125 sv1) = fst (timer_tick 1125 sv) /\
  chimes (snd (timer_tick 1125 sv)) ≡ₚ
    chimes (snd (timer_tick 1090 sv)) ++ chimes (snd (timer_tick 1125 sv1)).
Proof.
  apply (tick_absorbs_earlier_tick 1090 1125 (start_timer 1000 initial));
    vm_compute; discriminate.
Defined.

Lemma rung_silent (e : Z) (bs : list Bell) :
  List.filter (rings e) (rung e <$> bs) = [].
Proof.
  induction bs as [| b bs IH]; [done |]. simpl.
  rewrite (rings_rung e e b) by lia. rewrite andb_negb_r. exact IH.
Qed.

(** X14: a loop iteration repeated at the same clock reading changes
    nothing and rings nothing: its broadcast is the state alone. *)
Theorem repeated_tick_is_silent (now : Q) (sv : Server) :
  let sv1 := fst (timer_tick now sv) in
  timer_tick now sv1 = (sv1, {| snapshot := state sv1; fire_bells := None |}).
Proof.
  intros sv1. subst sv1. rewrite (timer_tick_unfold now sv). simpl.
  rewrite timer_tick_unfold. simpl. unfold elapsed_at, remaining_at. simpl.
  fold (elapsed_at now sv). fold (remaining_at now sv).
  rewrite rung_silent. simpl.
  assert (Hb : rung (Py.trunc (elapsed_at now sv)) <$>
                 (rung (Py.trunc (elapsed_at now sv)) <$> bells (state sv))
               = rung (Py.trunc (elapsed_at now sv)) <$> bells (state sv)).
  { rewrite <- list_fmap_compose. apply list_fmap_ext.
    intros j b _. simpl. apply rung_rung. lia. }
  now rewrite Hb.
Qed.

(** X15: a loop iteration changes neither the flags [running] and
    [paused], nor the total, nor the globals, nor the settings of any
    bell, and it clears no bell flag. *)
Theorem tick_keeps_settings (now : Q) (sv : Server) :
  let sv' := fst (timer_tick now sv) in
  (running (state sv'), paused (state sv'), total_sec (state sv'))
  = (running (state sv), paused (state sv), total_sec (state sv)) /\
  (timer_task sv', start_wall sv', elapsed_at_pause sv')
  = (timer_task sv, start_wall sv, elapsed_at_pause sv) /\
  settings <$> bells (state sv') = settings <$> bells (state sv) /\
  (forall i, is_triggered i sv -> is_triggered i sv').
Proof.
  intros sv'. subst sv'. rewrite timer_tick_unfold. simpl.
  split; [done |]. split; [done |]. split.
  - rewrite <- list_fmap_compose. apply list_fmap_ext.
    intros j b _. simpl. unfold rung. now destruct (rings _ b).
  - intros i (b & Hb & Htrig). exists b. simpl. split; [| done].
    rewrite list_lookup_fmap, Hb. simpl. now rewrite rung_triggered.
Qed.

Lemma tick_keeps_settings_witness :
  let sv := run minute_run initial in
  is_triggered 0 sv /\ is_triggered 0 (fst (timer_tick 1061 sv)) /\
  settings <$> bells (state (fst (timer_tick 1061 sv))) = settings <$> bells (state sv).
Proof.
  assert (Htrig : is_triggered 0 (run minute_run initial))
    by (eexists; split; reflexivity).
  destruct (tick_keeps_settings 1061 (run minute_run initial)) as (_ & _ & Hset & Hkeep).
  split; [exact Htrig |]. split; [exact (Hkeep 0%nat Htrig) | exact Hset].
Defined.

(** ** A disabled bell *)

Lemma disabled_kept (now : Q) (ev : event) (sv : Server) (i : nat) :
  is_disabled i sv -> retargets i ev = false -> is_disabled i (step now ev sv).
Proof.
  intros (b & Hb & Hoff) Hre. unfold is_disabled.
  pose proof (step_effects now ev sv) as Heff.
  revert Heff Hre. generalize (step now ev sv). intros sv' Heff.
  destruct Heff as [data sv' Hcmd | Ht |]; intros Hre; [| | eauto].
  - simpl in Hre.
    destruct Hcmd as [| _ _ | _ _ | _ | total _ _ _ | idx at_ en Hact Hidx _];
      simpl; eauto.
    + exists (set_triggered false b). now rewrite list_lookup_fmap, Hb.
    + exists (set_triggered false b). now rewrite list_lookup_fmap, Hb.
    + destruct (decide (idx = i)) as [-> | Hne].
      * rewrite Hact, (bell_index_target _ _ _ Hidx) in Hre. discriminate.
      * exists b. now rewrite list_lookup_alter_ne.
  - rewrite timer_tick_unfold. simpl. exists b. split; [| done].
    rewrite list_lookup_fmap, Hb. simpl. unfold rung, rings. rewrite Hoff. done.
Qed.

(** X16: a disabled bell stays disabled and never fires, through every
    run of commands and loop iterations that holds no [set_bell] for it:
    [start], [pause], [reset], [set_total] and the clock do not enable
    it. *)
Theorem disabled_bell_stays_silent (i : nat) (script : list (Q * event))
    (sv : Server) :
  is_disabled i sv -> untouched i script = true ->
  fire_count i script sv = 0%nat /\ is_disabled i (run script sv).
Proof.
  revert sv. induction script as [| [now ev] rest IH]; intros sv Hoff Hun; [done |].
  simpl in Hun. apply andb_true_iff in Hun as [Hev%negb_true_iff Hrest]. simpl.
  destruct (IH (step now ev sv)) as [Hcount Hlast];
    [now apply disabled_kept | done |].
  split; [| done]. rewrite Hcount.
  destruct Hoff as (b & Hb & Hen).
  destruct ev as [data |]; simpl; [done |].
  rewrite Hb. unfold rings. rewrite Hen. simpl. now rewrite andb_false_r.
Qed.

Lemma disabled_bell_stays_silent_witness :
  is_disabled 0 bell0_disabled /\ untouched 0 two_minutes_script = true /\
  fire_count 0 two_minutes_script bell0_disabled = 0%nat /\
  fire_count 1 two_minutes_script bell0_disabled = 1%nat.
Proof.
  assert (Hoff : is_disabled 0 bell0_disabled) by (eexists; split; reflexivity).
  split; [exact Hoff |]. split; [reflexivity |]. split; [| reflexivity].
  exact (proj1 (disabled_bell_stays_silent 0 two_minutes_script bell0_disabled
                  Hoff eq_refl)).
Defined.

(** ** The loop as a whole *)

Lemma timer_loop_running (clock : list Q) (sv : Server) :
  ticking (state sv) = true ->
  length (snd (timer_loop clock sv)) = length clock /\
  ticking (state (fst (timer_loop clock sv))) = true /\
  (timer_task (fst (timer_loop clock sv)), start_wall (fst (timer_loop clock sv)),
   elapsed_at_pause (fst (timer_loop clock sv)))
  = (timer_task sv, start_wall sv, elapsed_at_pause sv) /\
  total_sec (state (fst (timer_loop clock sv))) = total_sec (state sv) /\
  last (snapshot <$> snd (timer_loop clock sv))
  = match clock with [] => None | _ => Some (state (fst (timer_loop clock sv))) end.
Proof.
  revert sv. induction clock as [| now later IH]; intros sv Ht; simpl; [done |].
  rewrite Ht.
  destruct (timer_tick_anchors now sv) as (Hsw & Hoff & Ht').
  assert (Htask : timer_task (fst (timer_tick now sv)) = timer_task sv)
    by now rewrite timer_tick_unfold.
  assert (Htot : total_sec (state (fst (timer_tick now sv))) = total_sec (state sv))
    by now rewrite timer_tick_unfold.
  assert (Hsnap : snapshot (snd (timer_tick now sv)) = state (fst (timer_tick now sv)))
    by now rewrite timer_tick_unfold.
  specialize (IH (fst (timer_tick now sv))).
  destruct (timer_tick now sv) as [sv1 sent]. simpl in *.
  destruct IH as (Hlen & Hrun & Hglob & Htotal & Hlast); [congruence |].
  destruct (timer_loop later sv1) as [sv2 rest] eqn:Hloop. simpl in *.
  split; [now rewrite Hlen |]. split; [done |].
  split; [congruence |]. split; [congruence |].
  destruct later as [| now' later'].
  - simpl in Hloop. injection Hloop as <- <-. simpl. now rewrite Hsnap.
  - destruct rest as [| sent' rest']; [simpl in Hlen; discriminate |].
    exact Hlast.
Qed.

(** X17: on an idle or paused server [timer_loop] runs no iteration; on a
    running one whose total is below [2^31], so that no iteration raises,
    it runs one iteration per clock reading and emits one event each, the
    last of which is the state it leaves; it keeps the loop guard true,
    the total and the three globals as they were. *)
Theorem timer_loop_emits_each_tick (clock : list Q) (sv : Server) :
  (ticking (state sv) = false -> timer_loop clock sv = (sv, [])) /\
  (ticking (state sv) = true -> small_total (state sv) ->
   length (snd (timer_loop clock sv)) = length clock /\
   ticking (state (fst (timer_loop clock sv))) = true /\
   (timer_task (fst (timer_loop clock sv)), start_wall (fst (timer_loop clock sv)),
    elapsed_at_pause (fst (timer_loop clock sv)))
   = (timer_task sv, start_wall sv, elapsed_at_pause sv) /\
   total_sec (state (fst (timer_loop clock sv))) = total_sec (state sv) /\
   last (snapshot <$> snd (timer_loop clock sv))
   = match clock with [] => None | _ => Some (state (fst (timer_loop clock sv))) end).
Proof.
  split; [| intros Ht _; now apply timer_loop_running].
  intros Ht. destruct clock; simpl; [done | now rewrite Ht].
Qed.

Lemma timer_loop_emits_each_tick_witness :
  timer_loop [1041%Q; 1042%Q] paused_at_30 = (paused_at_30, []) /\
  length (snd (timer_loop [1060%Q; 1061%Q; 1120%Q] (start_timer 1000 initial))) = 3%nat.
Proof.
  split.
  - exact (proj1 (timer_loop_emits_each_tick [1041%Q; 1042%Q] paused_at_30) eq_refl).
  - assert (Hsmall : small_total (state (start_timer 1000 initial)))
      by (vm_compute; split; reflexivity).
    exact (proj1 (proj2 (timer_loop_emits_each_tick [1060%Q; 1061%Q; 1120%Q]
                           (start_timer 1000 initial)) eq_refl Hsmall)).
Defined.

(** ** Starting over *)

Lemma trunc_Qeq (p q : Q) : (p == q)%Q -> Py.trunc p = Py.trunc q.
Proof.
  intros Heq. destruct (Qlt_le_dec p 0) as [Hp | Hp].
  - rewrite !trunc_nonpos by lra. now rewrite Heq.
  - rewrite !trunc_nonneg by lra. now rewrite Heq.
Qed.

Lemma trunc_remaining_same (T : Z) (p q : Q) :
  (p == q)%Q -> Py.trunc (inject_Z T - p)%Q = Py.trunc (inject_Z T - q)%Q.
Proof. intros Heq. apply trunc_Qeq. now rewrite Heq. Qed.

Lemma armed_batch (e : Z) (bs : list Bell) :
  count <$> List.filter (rings e) (set_triggered false <$> bs)
  = count <$> List.filter (fun b => enabled b && (at_sec b <=? e)) bs.
Proof.
  induction bs as [| b bs IH]; [done |].
  rewrite fmap_cons. cbn [List.filter].
  replace (rings e (set_triggered false b)) with (enabled b && (at_sec b <=? e)).
  2: { unfold rings. simpl. now rewrite andb_true_r. }
  destruct (enabled b && (at_sec b <=? e)); [rewrite !fmap_cons |]; now rewrite IH.
Qed.

(** X18: [reset] followed by [start] at clock reading [t0] counts from
    zero whatever came before: with a total below [2^31] and clock
    readings between [2^30] and [2^31], a loop iteration at [now >= t0]
    stores the whole seconds since [t0], the remainder of the total
    truncated, and rings exactly the enabled bells whose time has come,
    in list order. *)
Theorem reset_then_start_counts_from_zero (t1 t0 now : Q) (sv : Server)
    (data data' : gmap string Py.value) :
  is_action data "reset" = true -> is_action data' "start" = true ->
  (t0 <= now)%Q -> epoch_reading t0 = true -> epoch_reading now = true ->
  small_total (state sv) ->
  let sv2 := step t0 (Command data') (step t1 (Command data) sv) in
  let e := Qfloor (now - t0) in
  elapsed_sec (state (step now Tick sv2)) = e /\
  remaining_sec (state (step now Tick sv2))
  = Py.trunc (inject_Z (total_sec (state sv)) - (now - t0))%Q /\
  fire_bells (snd (timer_tick now sv2))
  = batch (count <$> List.filter (fun b => enabled b && (at_sec b <=? e))
                                 (bells (state sv))).
Proof.
  intros Hact Hact' Hnow _ _ _ sv2 e.
  assert (Hsv2 : sv2 = start_timer t0 (reset_timer sv)).
  { subst sv2. simpl.
    assert (Hreset : cmd t1 data sv = then_broadcast (reset_timer sv))
      by (choose_action Hact; reflexivity).
    rewrite Hreset. simpl.
    now rewrite (cmd_start t0 data' (reset_timer sv) Hact' eq_refl). }
  rewrite Hsv2. clear Hsv2 sv2.
  change (step now Tick (start_timer t0 (reset_timer sv)))
    with (fst (timer_tick now (start_timer t0 (reset_timer sv)))).
  rewrite timer_tick_unfold.
  cbn [fst snd state elapsed_sec remaining_sec fire_bells].
  assert (He : Py.trunc (elapsed_at now (start_timer t0 (reset_timer sv))) = e).
  { unfold elapsed_at. cbn [start_timer reset_timer elapsed_at_pause start_wall
                            state elapsed_sec].
    rewrite trunc_offset by (lia || lra). subst e. lia. }
  rewrite He. split; [done |]. split.
  - apply trunc_Qeq. unfold remaining_at, elapsed_at.
    cbn [start_timer reset_timer elapsed_at_pause start_wall state elapsed_sec
         total_sec].
    change (inject_Z 0) with 0%Q. ring.
  - f_equal. cbn [start_timer reset_timer state bells].
    apply armed_batch.
Qed.

Lemma reset_then_start_counts_from_zero_witness :
  let sv2 := step 1700000000 (Command (action "start"))
               (step 1200 (Command (action "reset")) (run overtime_run initial)) in
  small_total (state (run overtime_run initial)) /\
  elapsed_sec (state (step (3400000121 # 2) Tick sv2)) = 60 /\
  remaining_sec (state (step (3400000121 # 2) Tick sv2)) = 119 /\
  fire_bells (snd (timer_tick (3400000121 # 2) sv2)) = Some [1].
Proof.
  assert (Hsmall : small_total (state (run overtime_run initial)))
    by (vm_compute; split; reflexivity).
  assert (Hnow : (1700000000 <= (3400000121 # 2))%Q) by (vm_compute; discriminate).
  destruct (reset_then_start_counts_from_zero 1200 1700000000 (3400000121 # 2)
              (run overtime_run initial) (action "reset") (action "start")
              eq_refl eq_refl Hnow eq_refl eq_refl Hsmall)
    as (Hel & Hrem & Hfire).
  split; [exact Hsmall |].
  split; [rewrite Hel; vm_compute; reflexivity |].
  split; [rewrite Hrem; vm_compute; reflexivity | rewrite Hfire; vm_compute; reflexivity].
Defined.

(** ** [set_total] *)

(** X19: a [set_total] that returns leaves [running], [paused] and [over],
    the loop task, the wall-clock anchor and the settings of every bell as
    they were, whether it takes the new total or not; in particular it
    does not clear [over]. *)
Theorem set_total_keeps_flags (now : Q) (data : gmap string Py.value)
    (sv sv' : Server) (out : list Emission) :
  is_action data "set_total" = true ->
  cmd now data sv = Py.Ok (sv', out) ->
  (running (state sv'), paused (state sv'), over (state sv'))
  = (running (state sv), paused (state sv), over (state sv)) /\
  (timer_task sv', start_wall sv') = (timer_task sv, start_wall sv) /\
  settings <$> bells (state sv') = settings <$> bells (state sv).
Proof.
  intros Hact Hcmd. apply cmd_effects in Hcmd.
  destruct Hcmd as [| H _ | H _ | H | total _ _ _ | idx at_ en H _ _];
    try (rewrite (is_action_other _ _ _ Hact) in H; discriminate); [done |].
  simpl. split; [done |]. split; [done |].
  rewrite <- list_fmap_compose. now apply list_fmap_ext.
Qed.

Lemma set_total_keeps_flags_witness :
  let sv := step 1200 (Command (action "pause")) (run overtime_run initial) in
  let sv' := assign_total 300 sv in
  cmd 1210 five_minutes sv = Py.Ok (sv', [broadcast_state sv']) /\
  (running (state sv'), paused (state sv'), over (state sv')) = (true, true, true) /\
  remaining_sec (state sv') = 300.
Proof.
  assert (Hcmd : cmd 1210 five_minutes
                   (step 1200 (Command (action "pause")) (run overtime_run initial))
                 = Py.Ok (assign_total 300 (step 1200 (Command (action "pause"))
                                              (run overtime_run initial)),
                          [broadcast_state
                             (assign_total 300 (step 1200 (Command (action "pause"))
                                                  (run overtime_run initial)))]))
    by reflexivity.
  split; [exact Hcmd |]. split; [| reflexivity].
  rewrite (proj1 (set_total_keeps_flags 1210 five_minutes _ _ _ eq_refl Hcmd)).
  reflexivity.
Defined.

(** X20: a [set_total] with a positive total below [2^31] on a paused
    run keeps it paused and sets the frozen offset to zero, so that the
    next [start], at clock reading [t0], counts from zero against the new
    total: with clock readings between [2^30] and [2^31], a loop
    iteration at [now >= t0] stores the whole seconds since [t0] and the
    remainder of the new total truncated. *)
Theorem set_total_while_paused_restarts (t1 t0 now : Q) (sv : Server)
    (data data' : gmap string Py.value) (m s : Z) :
  running (state sv) = true -> paused (state sv) = true ->
  is_action data "set_total" = true ->
  field_is data "minutes" 3 m -> field_is data "seconds" 0 s ->
  0 < m * 60 + s < 2 ^ 31 ->
  is_action data' "start" = true -> (t0 <= now)%Q ->
  epoch_reading t0 = true -> epoch_reading now = true ->
  let sv1 := step t1 (Command data) sv in
  let sv2 := step t0 (Command data') sv1 in
  timing (state sv1) = (true, true, m * 60 + s, m * 60 + s, 0, over (state sv)) /\
  elapsed_at_pause sv1 = 0%Q /\
  elapsed_sec (state (step now Tick sv2)) = Qfloor (now - t0) /\
  remaining_sec (state (step now Tick sv2))
  = Py.trunc (inject_Z (m * 60 + s) - (now - t0))%Q.
Proof.
  intros Hrun Hp Hact Hm Hs [Hpos _] Hact' Hnow _ _ sv1 sv2.
  assert (Ht : ticking (state sv) = false) by (unfold ticking; now rewrite Hrun, Hp).
  assert (Hsv1 : sv1 = assign_total (m * 60 + s) sv).
  { subst sv1. simpl. rewrite (cmd_set_total t1 data sv m s) by done.
    now replace (0 <? m * 60 + s) with true by lia. }
  assert (Ht1 : ticking (state (assign_total (m * 60 + s) sv)) = false)
    by (unfold ticking; simpl; now rewrite Hrun, Hp).
  assert (Hsv2 : sv2 = start_timer t0 (assign_total (m * 60 + s) sv)).
  { subst sv2. rewrite Hsv1. simpl. now rewrite (cmd_start t0 data' _ Hact' Ht1). }
  rewrite Hsv1, Hsv2. clear Hsv1 Hsv2 sv1 sv2.
  split; [unfold timing; simpl; now rewrite Hrun, Hp |]. split; [reflexivity |].
  change (step now Tick (start_timer t0 (assign_total (m * 60 + s) sv)))
    with (fst (timer_tick now (start_timer t0 (assign_total (m * 60 + s) sv)))).
  rewrite timer_tick_unfold.
  cbn [fst snd state elapsed_sec remaining_sec]. split.
  - unfold elapsed_at. cbn [start_timer assign_total elapsed_at_pause start_wall
                            state elapsed_sec].
    rewrite trunc_offset by (lia || lra). lia.
  - apply trunc_Qeq. unfold remaining_at, elapsed_at.
    cbn [start_timer assign_total elapsed_at_pause start_wall state elapsed_sec
         total_sec].
    change (inject_Z 0) with 0%Q. ring.
Qed.

Lemma set_total_while_paused_restarts_witness :
  let sv1 := step 1035 (Command five_minutes) paused_at_30 in
  let sv2 := step 1700000000 (Command (action "start")) sv1 in
  timing (state sv1) = (true, true, 300, 300, 0, false) /\
  elapsed_sec (state (step (6800000005 # 4) Tick sv2)) = 1 /\
  remaining_sec (state (step (6800000005 # 4) Tick sv2)) = 298.
Proof.
  assert (Hnow : (1700000000 <= (6800000005 # 4))%Q) by (vm_compute; discriminate).
  assert (Htot : 0 < 5 * 60 + 0 < 2 ^ 31) by (vm_compute; split; reflexivity).
  destruct (set_total_while_paused_restarts 1035 1700000000 (6800000005 # 4)
              paused_at_30 five_minutes (action "start") 5 0
              eq_refl eq_refl eq_refl eq_refl eq_refl Htot eq_refl Hnow eq_refl eq_refl)
    as (Htim & _ & Hel & Hrem).
  split; [exact Htim |].
  split; [rewrite Hel | rewrite Hrem]; vm_compute; reflexivity.
Defined.

(** ** The direction of time *)

Lemma trunc_mono_all (p q : Q) : (p <= q)%Q -> Py.trunc p <= Py.trunc q.
Proof.
  intros Hle. destruct (Qlt_le_dec p 0) as [Hp | Hp].
  - destruct (Qlt_le_dec q 0) as [Hq | Hq].
    + rewrite !trunc_nonpos by lra. now apply Qceiling_resp_le.
    + pose proof (trunc_of_neg p Hp). pose proof (trunc_nonneg_le q Hq). lia.
  - now apply trunc_mono.
Qed.

(** X21: from one loop iteration to a later one of the same run the
    stored seconds move one way only: [elapsed_sec] does not decrease,
    [remaining_sec] does not increase, and [over], once set, stays set. *)
Theorem ticks_move_one_way (now1 now2 : Q) (sv : Server) :
  (now1 <= now2)%Q ->
  let st1 := state (fst (timer_tick now1 sv)) in
  let st2 := state (fst (timer_tick now2 (fst (timer_tick now1 sv)))) in
  elapsed_sec st1 <= elapsed_sec st2 /\
  remaining_sec st2 <= remaining_sec st1 /\
  (over st1 = true -> over st2 = true).
Proof.
  intros Hle st1 st2. subst st1 st2.
  rewrite (timer_tick_unfold now1 sv). cbn [fst state].
  rewrite timer_tick_unfold. cbn [fst state elapsed_sec remaining_sec over].
  unfold remaining_at, elapsed_at.
  cbn [state total_sec start_wall elapsed_at_pause].
  split; [apply trunc_mono_all; lra |]. split; [apply trunc_mono_all; lra |].
  rewrite !Qltb_true. lra.
Qed.

Lemma ticks_move_one_way_witness :
  let sv := start_timer 1000 initial in
  let st1 := state (fst (timer_tick (2361 # 2) sv)) in
  let st2 := state (fst (timer_tick (2365 # 2) (fst (timer_tick (2361 # 2) sv)))) in
  elapsed_sec st1 <= elapsed_sec st2 /\
  remaining_sec st2 <= remaining_sec st1 /\
  (over st1 = true -> over st2 = true).
Proof.
  apply (ticks_move_one_way (2361 # 2) (2365 # 2) (start_timer 1000 initial)).
  vm_compute. discriminate.
Defined.





(** ** The arithmetic of an iteration is exact *)

Section Grid.

Local Open Scope Q_scope.

Lemma grid_inject_Z (z : Z) : on_grid (inject_Z z).
Proof. exists (z * 2 ^ 22)%Z. unfold Qeq. simpl. lia. Qed.

Lemma grid_plus (a b : Q) : on_grid a -> on_grid b -> on_grid (a + b).
Proof.
  intros [ka Ha] [kb Hb]. exists (ka + kb)%Z. rewrite Ha, Hb.
  unfold Qeq, Qplus. simpl. lia.
Qed.

Lemma grid_minus (a b : Q) : on_grid a -> on_grid b -> on_grid (a - b).
Proof.
  intros [ka Ha] [kb Hb]. exists (ka - kb)%Z. rewrite Ha, Hb.
  unfold Qeq, Qminus, Qplus, Qopp. simpl. lia.
Qed.

Lemma epoch_reading_spec (t : Q) :
  epoch_reading t = true ->
  on_grid t /\ inject_Z (2 ^ 30) <= t /\ t < inject_Z (2 ^ 31).
Proof.
  unfold epoch_reading. rewrite !andb_true_iff, negb_true_iff, Qle_bool_iff.
  intros [[Hlo Hhi] Hden]. split; [| split; [done |]].
  - apply Z.eqb_eq in Hden. apply Z.mod_divide in Hden; [| done].
    destruct Hden as [c Hc]. exists (Qnum (Qred t) * c)%Z.
    rewrite <- (Qred_correct t) at 1. destruct (Qred t) as [n d]. simpl in *.
    unfold Qeq. simpl. change (Z.pos (2 ^ 22)) with (2 ^ 22)%Z. rewrite Hc. ring.
  - apply Qnot_le_lt. intros Hle%Qle_bool_iff. congruence.
Qed.

Lemma epoch_inv_later (t now : Q) (sv : Server) :
  epoch_inv t sv -> t <= now -> epoch_reading now = true -> epoch_inv now sv.
Proof.
  intros [Ht Hel Hanc] Hle Hnow. split; [done | lra |].
  intros Htick. destruct (Hanc Htick) as (Hg & Hsw & E & HE). repeat split; eauto. lra.
Qed.

Lemma epoch_inv_cmd (now : Q) (data : gmap string Py.value) (sv sv' : Server) :
  epoch_inv now sv -> (0 <= elapsed_sec (state sv))%Z ->
  cmd_effect now data sv sv' -> epoch_inv now sv'.
Proof.
  intros [Hnow Hel Hanc] HE Heff.
  destruct (epoch_reading_spec now Hnow) as (Hg & Hlo & Hhi).
  destruct Heff as [| _ Ht | _ Ht | _ | total _ Hpos Ht | idx at_ en _ _ Hidx].
  - done.
  - split; [done | done |]. intros _. simpl.
    split; [done |]. split; [lra |]. exists (elapsed_sec (state sv)). repeat split; done.
  - split; [done | done |]. unfold ticking in *. simpl.
    destruct (running (state sv)); simpl; discriminate.
  - split; [done | simpl; change (inject_Z 0) with 0; lra |]. simpl. discriminate.
  - split; [done | simpl; change (inject_Z 0) with 0; lra |].
    unfold ticking in *. simpl. now rewrite Ht.
  - split; done.
Qed.

Lemma epoch_inv_tick (now : Q) (sv : Server) :
  epoch_inv now sv -> ticking (state sv) = true ->
  epoch_inv now (fst (timer_tick now sv)).
Proof.
  intros [Hnow Hel Hanc] Ht. destruct (Hanc Ht) as (Hg & Hsw & E & Hoff & HE & Hbound).
  rewrite timer_tick_unfold. simpl. split; [done | | done].
  simpl. unfold elapsed_at. rewrite Hoff.
  rewrite trunc_offset by (lia || lra). rewrite inject_Z_plus.
  destruct (Qfloor_bounds (now - start_wall sv)). lra.
Qed.

Lemma on_epoch_inv (t : Q) (sv : Server) : on_epoch t sv -> epoch_inv t sv.
Proof.
  induction 1 as [t Ht | t sv now ev Hr IH Hle Hnow].
  - destruct (epoch_reading_spec t Ht) as (_ & Hlo & _).
    split; [done | simpl; change (inject_Z 0) with 0; lra | discriminate].
  - apply (epoch_inv_later _ now) in IH; [| done | done].
    pose proof (inv_elapsed _ _ (reachable_inv _ _ (on_epoch_reachable _ _ Hr))) as HE.
    destruct (step_effects now ev sv) as [data sv' Heff | Ht |].
    + eapply epoch_inv_cmd; eauto.
    + now apply epoch_inv_tick.
    + done.
Qed.

(** X23: in a run whose clock readings all lie between [2^30] and [2^31],
    with a total below [2^31], every number that a loop iteration computes
    (the time since the anchor, the elapsed time and the remaining time)
    is a multiple of [2^-22] of magnitude below [2^31], hence a double:
    the iteration rounds nothing, and what it stores is what [timer_tick]
    stores. *)
Theorem epoch_tick_is_exact (t now : Q) (sv : Server) :
  on_epoch t sv -> small_total (state sv) -> ticking (state sv) = true ->
  t <= now -> epoch_reading now = true ->
  exact_double (now - start_wall sv) /\
  exact_double (elapsed_at now sv) /\
  exact_double (remaining_at now sv).
Proof.
  intros Hr [Hpos Hsmall] Ht Hle Hnow.
  pose proof (epoch_inv_later _ now _ (on_epoch_inv _ _ Hr) Hle Hnow) as [_ _ Hanc].
  destruct (Hanc Ht) as (Hg & Hsw & E & Hoff & HE & Hbound).
  destruct (epoch_reading_spec now Hnow) as (Hgn & Hlo & Hhi).
  rewrite Zle_Qle in HE. rewrite Zlt_Qlt in Hpos, Hsmall.
  change (inject_Z 0) with 0 in HE, Hpos.
  assert (H30 : inject_Z (2 ^ 31) == 2 * inject_Z (2 ^ 30)) by reflexivity.
  assert (Hp30 : 0 < inject_Z (2 ^ 30)) by reflexivity.
  unfold exact_double, remaining_at, elapsed_at. rewrite Hoff.
  pose proof (grid_minus _ _ Hgn Hg) as Hd.
  pose proof (grid_plus _ _ (grid_inject_Z E) Hd) as He.
  pose proof (grid_minus _ _ (grid_inject_Z (total_sec (state sv))) He) as Hrem.
  repeat split; try done; lra.
Qed.

End Grid.

Lemma epoch_tick_is_exact_witness :
  let sv := run [ (1700000000%Q, Command (action "start")) ] initial in
  on_epoch 1700000000 sv /\ small_total (state sv) /\
  exact_double (remaining_at (3400000001 # 2) sv).
Proof.
  pose (Hr := on_epoch_run 1700000000 initial
                [ (1700000000%Q, Command (action "start")) ]
                (on_epoch_initial 1700000000 eq_refl) eq_refl eq_refl).
  assert (Hsmall : small_total
                     (state (run [ (1700000000%Q, Command (action "start")) ] initial)))
    by (vm_compute; split; reflexivity).
  assert (Hle : (1700000000 <= (3400000001 # 2))%Q) by (vm_compute; discriminate).
  split; [exact Hr |]. split; [exact Hsmall |].
  exact (proj2 (proj2 (epoch_tick_is_exact _ (3400000001 # 2) _ Hr Hsmall
                         eq_refl Hle eq_refl))).
Defined.
